(** * citizen.lawconnect: authentication screens and session state

    A shallow embedding of the client-side authentication logic of the
    repository: the password checks of the reset-password screen, the local
    validation and the OTP confirmation of the registration screen, the
    Redux auth slice (thunks and reducers) together with the token store it
    drives, and the route guard with the login redirect.

    JavaScript strings are sequences of UTF-16 code units; regular
    expressions are embedded as syntax trees and run by a derivative
    matcher, so that every [RegExp.test] of the source is an executable
    boolean function here. *)

From Stdlib Require Import List String Ascii NArith ZArith Bool Lia.
Import ListNotations.

Set Implicit Arguments.

(* ================================================================= *)
(** ** JavaScript strings *)

Module JsString.

(** A UTF-16 code unit. *)
Definition char := N.

(** A JavaScript string value. *)
Definition jsstring := list char.

Definition code (a : ascii) : char := N_of_ascii a.

(** The string value of an ASCII literal of the source. *)
Definition js (s : string) : jsstring := map code (list_ascii_of_string s).

(** Truthiness of a string: only the empty string is falsy. *)
Definition truthy (s : jsstring) : bool :=
  match s with
  | [] => false
  | _ :: _ => true
  end.

(** [a === b] on strings. *)
Fixpoint eqb (a b : jsstring) : bool :=
  match a, b with
  | [], [] => true
  | x :: a', y :: b' => N.eqb x y && eqb a' b'
  | _, _ => false
  end.

(** [m || d] where [m] is a string or [undefined]. *)
Definition or_default (m : option jsstring) (d : jsstring) : jsstring :=
  match m with
  | Some s => if truthy s then s else d
  | None => d
  end.

(** [parts.join("")] *)
Definition join (parts : list jsstring) : jsstring := List.concat parts.

(** [s.startsWith(sub)] *)
Fixpoint startsWith (s sub : jsstring) : bool :=
  match sub, s with
  | [], _ => true
  | x :: sub', y :: s' => N.eqb x y && startsWith s' sub'
  | _ :: _, [] => false
  end.

(** [s.includes(sub)] *)
Fixpoint includes (s sub : jsstring) : bool :=
  startsWith s sub
  || match s with
     | [] => false
     | _ :: s' => includes s' sub
     end.

(** [m?.includes(sub)], where [undefined] is falsy. *)
Definition includes_opt (m : option jsstring) (sub : jsstring) : bool :=
  match m with
  | Some s => includes s sub
  | None => false
  end.

End JsString.

Import JsString.

(* ================================================================= *)
(** ** Regular expressions *)

Module RegExp.

(** Syntax of the fragment of JavaScript regular expressions used by the
    screens; a character class is a predicate on code units. *)
Inductive re : Type :=
| Void : re
| Eps : re
| Cls : (char -> bool) -> re
| Cat : re -> re -> re
| Alt : re -> re -> re
| Star : re -> re.

Fixpoint nullable (r : re) : bool :=
  match r with
  | Void => false
  | Eps => true
  | Cls _ => false
  | Cat r1 r2 => nullable r1 && nullable r2
  | Alt r1 r2 => nullable r1 || nullable r2
  | Star _ => true
  end.

Fixpoint deriv (c : char) (r : re) : re :=
  match r with
  | Void => Void
  | Eps => Void
  | Cls p => if p c then Eps else Void
  | Cat r1 r2 =>
      if nullable r1
      then Alt (Cat (deriv c r1) r2) (deriv c r2)
      else Cat (deriv c r1) r2
  | Alt r1 r2 => Alt (deriv c r1) (deriv c r2)
  | Star r1 => Cat (deriv c r1) (Star r1)
  end.

(** The whole input is matched by [r]. *)
Fixpoint full_match (r : re) (s : jsstring) : bool :=
  match s with
  | [] => nullable r
  | c :: s' => full_match (deriv c r) s'
  end.

(** The words of a regular expression. *)
Inductive lang : re -> jsstring -> Prop :=
| lang_eps : lang Eps []
| lang_cls : forall p c, p c = true -> lang (Cls p) [c]
| lang_cat : forall r1 r2 u v,
    lang r1 u -> lang r2 v -> lang (Cat r1 r2) (u ++ v)
| lang_alt_l : forall r1 r2 u, lang r1 u -> lang (Alt r1 r2) u
| lang_alt_r : forall r1 r2 u, lang r2 u -> lang (Alt r1 r2) u
| lang_star_nil : forall r, lang (Star r) []
| lang_star_app : forall r u v,
    lang r u -> lang (Star r) v -> lang (Star r) (u ++ v).

(** *** Derived forms *)

(** [r+] *)
Definition plus (r : re) : re := Cat r (Star r).

(** [r?] *)
Definition opt (r : re) : re := Alt r Eps.

(** [r{n,}] *)
Fixpoint at_least (n : nat) (r : re) : re :=
  match n with
  | O => Star r
  | S n' => Cat r (at_least n' r)
  end.

(** A literal character. *)
Definition lit (a : ascii) : re := Cls (N.eqb (code a)).

(** *** Character classes *)

Definition in_range (lo hi : ascii) (c : char) : bool :=
  N.leb (code lo) c && N.leb c (code hi).

(** [[A-Z]] *)
Definition upper (c : char) : bool := in_range "A" "Z" c.

(** [[a-z]] *)
Definition lower (c : char) : bool := in_range "a" "z" c.

(** [\d] *)
Definition digit (c : char) : bool := in_range "0" "9" c.

(** [[@$!%*?&]] *)
Definition special (c : char) : bool :=
  N.eqb c (code "@") || N.eqb c (code "$") || N.eqb c (code "!") ||
  N.eqb c (code "%") || N.eqb c (code "*") || N.eqb c (code "?") ||
  N.eqb c (code "&").

(** Line terminators: LF, CR, U+2028, U+2029. *)
Definition line_terminator (c : char) : bool :=
  N.eqb c 10 || N.eqb c 13 || N.eqb c 8232 || N.eqb c 8233.

(** [\s]: white space and line terminators. *)
Definition space (c : char) : bool :=
  N.eqb c 9 || N.eqb c 10 || N.eqb c 11 || N.eqb c 12 || N.eqb c 13 ||
  N.eqb c 32 || N.eqb c 160 || N.eqb c 5760 ||
  (N.leb 8192 c && N.leb c 8202) ||
  N.eqb c 8232 || N.eqb c 8233 || N.eqb c 8239 || N.eqb c 8287 ||
  N.eqb c 12288 || N.eqb c 65279.

(** [.] (no [s] flag): anything but a line terminator. *)
Definition dot : re := Cls (fun c => negb (line_terminator c)).

(** Any code unit at all. *)
Definition any : re := Cls (fun _ => true).

(** *** [RegExp.prototype.test] *)

(** [/body/.test(s)]: the body matches somewhere in [s]. *)
Definition test_search (body : re) (s : jsstring) : bool :=
  full_match (Cat (Star any) (Cat body (Star any))) s.

(** A lookahead [(?=la)] placed right after [^]: some prefix of the input
    matches [la]. *)
Definition lookahead (la : re) (s : jsstring) : bool :=
  full_match (Cat la (Star any)) s.

(** [/^(?=la1)...(?=lak)body$/.test(s)] *)
Definition test_anchored (las : list re) (body : re) (s : jsstring) : bool :=
  forallb (fun la => lookahead la s) las && full_match body s.

(** [r{n}] *)
Fixpoint exactly (n : nat) (r : re) : re :=
  match n with
  | O => Eps
  | S n' => Cat r (exactly n' r)
  end.

(** [s.trim()]: white space and line terminators, the characters of [\s],
    are removed at both ends. *)
Fixpoint trimStart (s : jsstring) : jsstring :=
  match s with
  | [] => []
  | c :: s' => if space c then trimStart s' else s
  end.

Definition trimEnd (s : jsstring) : jsstring := rev (trimStart (rev s)).

Definition trim (s : jsstring) : jsstring := trimEnd (trimStart s).

End RegExp.

Import RegExp.

(* ================================================================= *)
(** ** Reset-password screen *)

Module ResetPassword.

Inductive strength : Type := weak | medium | strong.

Definition checkPasswordStrength (password : jsstring) : strength :=
  let hasUppercase := test_search (Cls upper) password in
  let hasLowercase := test_search (Cls lower) password in
  let hasNumber := test_search (Cls digit) password in
  let hasSpecialChar := test_search (Cls special) password in
  let isLongEnough := Nat.leb 8 (List.length password) in
  let passedChecks :=
    List.length
      (filter (fun b : bool => b)
         [hasUppercase; hasLowercase; hasNumber; hasSpecialChar;
          isLongEnough]) in
  if Nat.leb passedChecks 2 then weak
  else if Nat.leb passedChecks 4 then medium
  else strong.

(** [[A-Za-z\d@$!%*?&]] *)
Definition password_char (c : char) : bool :=
  upper c || lower c || digit c || special c.

(** [/^(?=.*[a-z])(?=.*[A-Z])(?=.*\d)(?=.*[@$!%*?&])[A-Za-z\d@$!%*?&]{8,}$/] *)
Definition passwordRegex (s : jsstring) : bool :=
  test_anchored
    [Cat (Star dot) (Cls lower);
     Cat (Star dot) (Cls upper);
     Cat (Star dot) (Cls digit);
     Cat (Star dot) (Cls special)]
    (at_least 8 (Cls password_char))
    s.

Record FormData : Type := mkFormData {
  password : jsstring;
  confirmPassword : jsstring
}.

(** [validateForm]: the verdict, and the value left in the [error] state. *)
Definition validateForm (formData : FormData) : bool * option jsstring :=
  if negb (truthy (password formData))
     || Nat.ltb (List.length (password formData)) 8
  then (false, Some (js "Password must be at least 8 characters long"))
  else if negb (passwordRegex (password formData))
  then (false,
        Some (js "Password must include uppercase, lowercase, number, and special character"))
  else if negb (eqb (password formData) (confirmPassword formData))
  then (false, Some (js "Passwords do not match"))
  else (true, None).

(** The component state; [token] is [searchParams.get("token")], and
    [timers] lists the navigations handed to [setTimeout] with their
    delays. *)
Record State : Type := mkState {
  token : option jsstring;
  isLoading : bool;
  isSuccess : bool;
  error : option jsstring;
  isTokenValid : bool;
  passwordStrength : option strength;
  formData : FormData;
  toasts : list (bool * jsstring * jsstring);
  timers : list (nat * jsstring)
}.

(** The state the component starts in for a given query parameter. *)
Definition initial (token : option jsstring) : State :=
  mkState token false false None true None (mkFormData [] []) [] [].

(** [!token] *)
Definition token_missing (st : State) : bool :=
  match token st with
  | Some t => negb (truthy t)
  | None => true
  end.

(** The effect that validates that the token exists. *)
Definition validateToken (st : State) : State :=
  if token_missing st
  then
    mkState (token st) (isLoading st) (isSuccess st)
      (Some (js "Invalid or missing reset token")) false
      (passwordStrength st) (formData st) (toasts st) (timers st)
  else st.

(** The two inputs of the form, by their [name]. *)
Inductive field : Type := password_field | confirmPassword_field.

Definition handleChange (name : field) (value : jsstring) (st : State)
  : State :=
  match name with
  | password_field =>
      mkState (token st) (isLoading st) (isSuccess st) (error st)
        (isTokenValid st) (Some (checkPasswordStrength value))
        (mkFormData value (confirmPassword (formData st)))
        (toasts st) (timers st)
  | confirmPassword_field =>
      mkState (token st) (isLoading st) (isSuccess st) (error st)
        (isTokenValid st) (passwordStrength st)
        (mkFormData (password (formData st)) value)
        (toasts st) (timers st)
  end.

(** The outcome of [API.post("/password/reset-password", ...)]: the
    [message] of the resolved [response.data] ([None] when [data] or the
    message is missing), or the error with its
    [response?.data?.message]. *)
Inductive reply : Type :=
| Replied : option jsstring -> reply
| Failed : option jsstring -> reply.

(** [handleSubmit]; [post token password confirmPassword] is the outcome
    of the request. *)
Definition handleSubmit
    (post : jsstring -> jsstring -> jsstring -> reply) (st : State)
  : State :=
  let '(valid, error') := validateForm (formData st) in
  let st :=
    mkState (token st) (isLoading st) (isSuccess st) error'
      (isTokenValid st) (passwordStrength st) (formData st) (toasts st)
      (timers st) in
  if negb valid then st
  else
    match token st with
    | None => st
    | Some t =>
        if negb (truthy t) then st
        else
          (* setIsLoading(true), the request, and setIsLoading(false) in
             the finally block *)
          match post t (password (formData st))
                  (confirmPassword (formData st)) with
          | Replied m =>
              if truthy (or_default m [])
              then
                mkState (token st) false true (error st) (isTokenValid st)
                  (passwordStrength st) (formData st)
                  (toasts st
                   ++ [(false, js "Password Reset Successful",
                        or_default m [])])
                  (timers st ++ [(3000, js "/login")])
              else
                mkState (token st) false (isSuccess st) (error st)
                  (isTokenValid st) (passwordStrength st) (formData st)
                  (toasts st) (timers st)
          | Failed m =>
              let errorMessage :=
                or_default m (js "Failed to reset password") in
              mkState (token st) false (isSuccess st) (Some errorMessage)
                (if includes errorMessage (js "expired")
                    || includes errorMessage (js "invalid")
                 then false else isTokenValid st)
                (passwordStrength st) (formData st)
                (toasts st ++ [(true, js "Reset Failed", errorMessage)])
                (timers st)
          end
    end.

End ResetPassword.

(* ================================================================= *)
(** ** HTTP calls *)

Module Http.

(** The outcome of an awaited HTTP call: the promise resolves with a
    value, or rejects with an error whose [response?.data?.message] is
    recorded ([None] when any link of that chain is missing). *)
Inductive result (A : Type) : Type :=
| Resolved : A -> result A
| Thrown : option jsstring -> result A.

Arguments Resolved {A} _.
Arguments Thrown {A} _.

(** The body of a message-carrying response, [{ message?: string }]. *)
Record ApiResponse : Type := mkApiResponse {
  message : option jsstring
}.

(** [data?.message] *)
Definition message_of (data : option ApiResponse) : option jsstring :=
  match data with
  | Some d => message d
  | None => None
  end.

(** [data && data.message === expected] *)
Definition message_is (data : option ApiResponse) (expected : jsstring)
  : bool :=
  match message_of data with
  | Some m => eqb m expected
  | None => false
  end.

(** A toast notification. *)
Record Toast : Type := mkToast {
  destructive : bool;
  title : jsstring;
  description : jsstring
}.

End Http.

Import Http.

(* ================================================================= *)
(** ** Registration screen *)

Module Register.

Record FormData : Type := mkFormData {
  fullName : jsstring;
  email : jsstring;
  phoneNumber : jsstring;
  languagePreference : jsstring;
  location : jsstring;
  password : jsstring;
  confirmPassword : jsstring
}.

Module FormErrors.
Record t : Type := mk {
  email : jsstring;
  phoneNumber : jsstring;
  password : jsstring;
  confirmPassword : jsstring
}.
Definition with_email (v : jsstring) (e : t) : t :=
  mk v (phoneNumber e) (password e) (confirmPassword e).
Definition with_phoneNumber (v : jsstring) (e : t) : t :=
  mk (email e) v (password e) (confirmPassword e).
Definition with_password (v : jsstring) (e : t) : t :=
  mk (email e) (phoneNumber e) v (confirmPassword e).
Definition with_confirmPassword (v : jsstring) (e : t) : t :=
  mk (email e) (phoneNumber e) (password e) v.
End FormErrors.

(** The component state. *)
Record State : Type := mkState {
  formData : FormData;
  formErrors : FormErrors.t;
  isVerifying : bool;
  isEmailVerified : bool;
  showOtpModal : bool;
  otp : list jsstring;
  verificationError : jsstring;
  verificationLoading : bool;
  registrationError : option jsstring;
  toasts : list Toast
}.

Definition setFormErrors (v : FormErrors.t) (st : State) : State :=
  mkState (formData st) v (isVerifying st) (isEmailVerified st)
    (showOtpModal st) (otp st) (verificationError st)
    (verificationLoading st) (registrationError st) (toasts st).

Definition setIsVerifying (v : bool) (st : State) : State :=
  mkState (formData st) (formErrors st) v (isEmailVerified st)
    (showOtpModal st) (otp st) (verificationError st)
    (verificationLoading st) (registrationError st) (toasts st).

Definition setIsEmailVerified (v : bool) (st : State) : State :=
  mkState (formData st) (formErrors st) (isVerifying st) v
    (showOtpModal st) (otp st) (verificationError st)
    (verificationLoading st) (registrationError st) (toasts st).

Definition setShowOtpModal (v : bool) (st : State) : State :=
  mkState (formData st) (formErrors st) (isVerifying st)
    (isEmailVerified st) v (otp st) (verificationError st)
    (verificationLoading st) (registrationError st) (toasts st).

Definition setVerificationError (v : jsstring) (st : State) : State :=
  mkState (formData st) (formErrors st) (isVerifying st)
    (isEmailVerified st) (showOtpModal st) (otp st) v
    (verificationLoading st) (registrationError st) (toasts st).

Definition toast (t : Toast) (st : State) : State :=
  mkState (formData st) (formErrors st) (isVerifying st)
    (isEmailVerified st) (showOtpModal st) (otp st) (verificationError st)
    (verificationLoading st) (registrationError st) (toasts st ++ [t]).

(** [[^\s@]] *)
Definition not_space_at (c : char) : bool :=
  negb (space c || N.eqb c (code "@")).

(** [/^[^\s@]+@[^\s@]+\.[^\s@]+$/] *)
Definition emailRegex (s : jsstring) : bool :=
  test_anchored []
    (Cat (plus (Cls not_space_at))
       (Cat (lit "@")
          (Cat (plus (Cls not_space_at))
             (Cat (lit ".") (plus (Cls not_space_at))))))
    s.

(** [[\d\s-]] *)
Definition phone_char (c : char) : bool :=
  digit c || space c || N.eqb c (code "-").

(** [/^\+?[\d\s-]{10,}$/] *)
Definition phoneRegex (s : jsstring) : bool :=
  test_anchored []
    (Cat (opt (lit "+")) (at_least 10 (Cls phone_char)))
    s.

(** [validateForm]: the returned [isValid] and the errors handed to
    [setFormErrors].  Every check runs; none returns early. *)
Definition validateForm (formData : FormData) (isEmailVerified : bool)
  : bool * FormErrors.t :=
  let isValid := true in
  let newErrors := FormErrors.mk [] [] [] [] in
  (* Check if at least one of email or phone is provided *)
  let '(isValid, newErrors) :=
    if negb (truthy (email formData)) && negb (truthy (phoneNumber formData))
    then (false,
          FormErrors.with_phoneNumber
            (js "Either email or phone number is required")
            (FormErrors.with_email
               (js "Either email or phone number is required") newErrors))
    else (isValid, newErrors) in
  (* Validate email if provided *)
  let '(isValid, newErrors) :=
    if truthy (email formData) && negb (emailRegex (email formData))
    then (false,
          FormErrors.with_email (js "Please enter a valid email address")
            newErrors)
    else (isValid, newErrors) in
  (* Validate phone if provided *)
  let '(isValid, newErrors) :=
    if truthy (phoneNumber formData)
       && negb (phoneRegex (phoneNumber formData))
    then (false,
          FormErrors.with_phoneNumber
            (js "Please enter a valid phone number") newErrors)
    else (isValid, newErrors) in
  (* Validate password *)
  let '(isValid, newErrors) :=
    if Nat.ltb (List.length (password formData)) 8
    then (false,
          FormErrors.with_password
            (js "Password must be at least 8 characters") newErrors)
    else (isValid, newErrors) in
  (* Validate password match *)
  let '(isValid, newErrors) :=
    if negb (eqb (password formData) (confirmPassword formData))
    then (false,
          FormErrors.with_confirmPassword (js "Passwords do not match")
            newErrors)
    else (isValid, newErrors) in
  (* Check email verification *)
  let '(isValid, newErrors) :=
    if truthy (email formData) && negb isEmailVerified
    then (false,
          FormErrors.with_email (js "Email must be verified") newErrors)
    else (isValid, newErrors) in
  (isValid, newErrors).

(** [validateForm] as the component runs it: on its own state, storing
    the errors. *)
Definition run_validateForm (st : State) : bool * State :=
  let '(isValid, newErrors) :=
    validateForm (formData st) (isEmailVerified st) in
  (isValid, setFormErrors newErrors st).

(** [handleVerifyOtp]; [post_mail_confirm email otp] is the outcome of
    [API.post("/mail/confirm", { email, otp })], its resolved value being
    [response.data]. *)
Definition handleVerifyOtp
    (post_mail_confirm : jsstring -> jsstring -> result (option ApiResponse))
    (st : State) : State :=
  let otpValue := join (otp st) in
  if negb (Nat.eqb (List.length otpValue) 6)
  then setVerificationError (js "Please enter a valid 6-digit OTP") st
  else
    let st := setIsVerifying true st in
    let st := setVerificationError [] st in
    let st :=
      match post_mail_confirm (email (formData st)) otpValue with
      | Resolved data =>
          if message_is data (js "Email verified.")
          then
            toast
              (mkToast false (js "Email Verified")
                 (js "Your email has been successfully verified."))
              (setShowOtpModal false (setIsEmailVerified true st))
          else
            setVerificationError
              (or_default (message_of data) (js "Invalid OTP")) st
      | Thrown m =>
          toast
            (mkToast true (js "Verification Failed")
               (or_default m (js "Failed to verify OTP")))
            (setVerificationError
               (or_default m (js "Verification failed")) st)
      end in
    setIsVerifying false st.

Definition setFormData (v : FormData) (st : State) : State :=
  mkState v (formErrors st) (isVerifying st) (isEmailVerified st)
    (showOtpModal st) (otp st) (verificationError st)
    (verificationLoading st) (registrationError st) (toasts st).

Definition setOtp (v : list jsstring) (st : State) : State :=
  mkState (formData st) (formErrors st) (isVerifying st)
    (isEmailVerified st) (showOtpModal st) v (verificationError st)
    (verificationLoading st) (registrationError st) (toasts st).

Definition setVerificationLoading (v : bool) (st : State) : State :=
  mkState (formData st) (formErrors st) (isVerifying st)
    (isEmailVerified st) (showOtpModal st) (otp st) (verificationError st)
    v (registrationError st) (toasts st).

(** The inputs wired to [handleChange], by their [name]. *)
Inductive field : Type :=
| fullName_field
| email_field
| phoneNumber_field
| location_field
| password_field
| confirmPassword_field.

(** [{ ...prev, [name]: value }] *)
Definition with_field (name : field) (value : jsstring) (prev : FormData)
  : FormData :=
  match name with
  | fullName_field =>
      mkFormData value (email prev) (phoneNumber prev)
        (languagePreference prev) (location prev) (password prev)
        (confirmPassword prev)
  | email_field =>
      mkFormData (fullName prev) value (phoneNumber prev)
        (languagePreference prev) (location prev) (password prev)
        (confirmPassword prev)
  | phoneNumber_field =>
      mkFormData (fullName prev) (email prev) value
        (languagePreference prev) (location prev) (password prev)
        (confirmPassword prev)
  | location_field =>
      mkFormData (fullName prev) (email prev) (phoneNumber prev)
        (languagePreference prev) value (password prev)
        (confirmPassword prev)
  | password_field =>
      mkFormData (fullName prev) (email prev) (phoneNumber prev)
        (languagePreference prev) (location prev) value
        (confirmPassword prev)
  | confirmPassword_field =>
      mkFormData (fullName prev) (email prev) (phoneNumber prev)
        (languagePreference prev) (location prev) (password prev) value
  end.

Definition handleChange (name : field) (value : jsstring) (st : State)
  : State :=
  let st := setFormData (with_field name value (formData st)) st in
  (* Reset email verification if email changes *)
  match name with
  | email_field => setIsEmailVerified false st
  | _ => st
  end.

(** [handleSendVerification]; [post_mail_send email] is the outcome of
    [API.post("/mail/send", { email })], its resolved value being
    [response.data]. *)
Definition handleSendVerification
    (post_mail_send : jsstring -> result (option ApiResponse))
    (st : State) : State :=
  if negb (truthy (email (formData st)))
     || negb (emailRegex (email (formData st)))
  then
    setFormErrors
      (FormErrors.with_email (js "Please enter a valid email address")
         (formErrors st)) st
  else
    let st := setVerificationLoading true st in
    let st := setVerificationError [] st in
    let st :=
      match post_mail_send (email (formData st)) with
      | Resolved data =>
          if truthy (or_default (message_of data) [])
          then
            (* Check if the email is already verified *)
            if includes_opt (message_of data) (js "already verified")
            then
              toast
                (mkToast false (js "Email Already Verified")
                   (js "This email has already been verified."))
                (setIsEmailVerified true st)
            else
              setShowOtpModal true
                (toast
                   (mkToast false (js "Verification Email Sent")
                      (or_default (message_of data) [])) st)
          else st
      | Thrown m =>
          (* Check if this is the "already verified" error *)
          if includes_opt m (js "already verified")
          then
            toast
              (mkToast false (js "Email Already Verified")
                 (js "This email has already been verified."))
              (setIsEmailVerified true st)
          else
            toast
              (mkToast true (js "Verification Failed")
                 (or_default m (js "Failed to send verification email")))
              (setVerificationError
                 (or_default m (js "Failed to send verification email")) st)
      end in
    setVerificationLoading false st.

(** [useState(["", "", "", "", "", ""])] *)
Definition initial_otp : list jsstring := [[]; []; []; []; []; []].

(** [newOtp[index] = value] on a copy of the array.  Writing past the end
    lengthens the array; the slots skipped are holes, which the inputs and
    [join] render as the empty string. *)
Fixpoint array_set (index : nat) (value : jsstring) (a : list jsstring)
  : list jsstring :=
  match index, a with
  | O, [] => [value]
  | O, _ :: rest => value :: rest
  | S i, [] => [] :: array_set i value []
  | S i, x :: rest => x :: array_set i value rest
  end.

(** [handleOtpChange]: the new state and the index of the input it asks
    the focus for, if any. *)
Definition handleOtpChange (index : nat) (value : jsstring) (st : State)
  : State * option nat :=
  (* Allow only one digit *)
  if negb (test_anchored [] (opt (Cls digit)) value) then (st, None)
  else
    let st := setOtp (array_set index value (otp st)) st in
    (* Auto focus next input *)
    if truthy value && Nat.ltb index 5 then (st, Some (index + 1))
    else (st, None).

(** [handleOtpPaste], on the text of the clipboard. *)
Definition handleOtpPaste (clipboard : jsstring) (st : State)
  : State * option nat :=
  let pastedData := trim clipboard in
  (* Check if pasted content is a 6-digit number *)
  if test_anchored [] (exactly 6 (Cls digit)) pastedData
  then
    let otpDigits := map (fun c => [c]) pastedData in
    (* Focus the last input after pasting *)
    (setOtp otpDigits st, Some 5)
  else (st, None).

(** [handleKeyDown], on the [key] of the event: the index of the input it
    asks the focus for, if any. *)
Definition handleKeyDown (index : nat) (key : jsstring) (st : State)
  : option nat :=
  (* Handle backspace to go to previous input *)
  if eqb key (js "Backspace")
     && match nth_error (otp st) index with
        | Some digit => negb (truthy digit)
        | None => false
        end
     && Nat.ltb 0 index
  then Some (index - 1)
  else None.

End Register.

(* ================================================================= *)
(** ** Forgot-password screen *)

Module ForgotPassword.

Record State : Type := mkState {
  email : jsstring;
  isLoading : bool;
  isEmailSent : bool;
  error : option jsstring;
  toasts : list Toast
}.

(** [/^[^\s@]+@[^\s@]+\.[^\s@]+$/.test(email)] *)
Definition validateEmail (email : jsstring) : bool :=
  Register.emailRegex email.

(** [handleSubmit]; [post_forgot_password email] is the outcome of
    [API.post("/password/forgot-password", { email })], its resolved value
    being [response.data]. *)
Definition handleSubmit
    (post_forgot_password : jsstring -> result (option ApiResponse))
    (st : State) : State :=
  (* Validate email *)
  if negb (truthy (email st)) || negb (validateEmail (email st))
  then
    mkState (email st) (isLoading st) (isEmailSent st)
      (Some (js "Please enter a valid email address")) (toasts st)
  else
    (* setError(null), setIsLoading(true), the request, and
       setIsLoading(false) in the finally block *)
    match post_forgot_password (email st) with
    | Resolved data =>
        if truthy (or_default (message_of data) [])
        then
          mkState (email st) false true None
            (toasts st
             ++ [mkToast false (js "Reset Email Sent")
                   (or_default (message_of data) [])])
        else mkState (email st) false (isEmailSent st) None (toasts st)
    | Thrown m =>
        let errorMessage := or_default m (js "Failed to send reset email") in
        mkState (email st) false (isEmailSent st) (Some errorMessage)
          (toasts st ++ [mkToast true (js "Request Failed") errorMessage])
    end.

End ForgotPassword.

(* ================================================================= *)
(** ** Token store *)

Module AuthService.

(** Modelled from the spec: the session token of [@/services/authService],
    which is not among the sources.  The spec describes it as an opaque
    bearer credential with an embedded expiry timestamp and a subject
    identifier (the user's email); a token is represented by these two
    decoded claims ([jwtDecode] gives [sub] and [exp]).  A token string is
    never empty, so a stored token is truthy. *)
Record Token : Type := mkToken {
  sub : jsstring;
  exp : Z
}.

(** Modelled from the spec: the Token Store holds at most one token. *)
Definition TokenStore : Type := option Token.

(** Modelled from the spec: [get() -> token|absent]. *)
Definition getAccessToken (ts : TokenStore) : option Token := ts.

(** Modelled from the spec: [set(token)]. *)
Definition setAccessToken (t : Token) (ts : TokenStore) : TokenStore :=
  Some t.

(** Modelled from the spec: [remove()]. *)
Definition removeAccessToken (ts : TokenStore) : TokenStore := None.

(** Modelled from the spec: [isExpired(token)] is true iff the embedded
    expiry timestamp is at or before the current time. *)
Definition isTokenExpired (now : Z) (t : Token) : bool :=
  Z.leb (exp t) now.

End AuthService.

(* ================================================================= *)
(** ** Auth slice *)

Module AuthSlice.

Import AuthService.

Record User : Type := mkUser {
  id : jsstring;
  fullName : jsstring;
  email : jsstring;
  phoneNumber : jsstring;
  languagePreference : jsstring;
  location : jsstring
}.

Record AuthState : Type := mkAuthState {
  isAuthenticated : bool;
  user : option User;
  loading : bool;
  error : option jsstring
}.

Record LoginByEmailPayload : Type := mkLoginByEmailPayload {
  credentials_email : jsstring;
  credentials_password : jsstring
}.

Record LoginResponse : Type := mkLoginResponse {
  accessToken : Token;
  refreshToken : jsstring
}.

(** [TokenResponse]; [data] is [None] when the field is falsy. *)
Record TokenResponse : Type := mkTokenResponse {
  token_message : jsstring;
  data : option Token
}.

(** What the fulfilled check-auth, login and refresh actions carry. *)
Record AuthPayload : Type := mkAuthPayload {
  payload_accessToken : Token;
  citizen : User
}.

(** *** Effects: the token store and exceptions *)

(** A thrown value: an HTTP error with its [response?.data?.message], or
    a plain [Error], which has no [response]. *)
Inductive exn : Type :=
| HttpError : option jsstring -> exn
| Error : jsstring -> exn.

(** [error.response?.data?.message] *)
Definition response_message (e : exn) : option jsstring :=
  match e with
  | HttpError m => m
  | Error _ => None
  end.

(** A computation that reads and writes the token store and may throw. *)
Definition M (A : Type) : Type := TokenStore -> (A + exn) * TokenStore.

Definition ret {A : Type} (a : A) : M A := fun ts => (inl a, ts).

Definition bind {A B : Type} (m : M A) (k : A -> M B) : M B :=
  fun ts =>
    match m ts with
    | (inl a, ts') => k a ts'
    | (inr e, ts') => (inr e, ts')
    end.

Definition throw {A : Type} (e : exn) : M A := fun ts => (inr e, ts).

Definition try_catch {A : Type} (m : M A) (handler : exn -> M A) : M A :=
  fun ts =>
    match m ts with
    | (inl a, ts') => (inl a, ts')
    | (inr e, ts') => handler e ts'
    end.

Definition await {A : Type} (r : result A) : M A :=
  match r with
  | Resolved a => ret a
  | Thrown m => throw (HttpError m)
  end.

Definition get_token : M (option Token) :=
  fun ts => (inl (getAccessToken ts), ts).

Definition set_token (t : Token) : M unit :=
  fun ts => (inl tt, setAccessToken t ts).

Definition remove_token : M unit :=
  fun ts => (inl tt, removeAccessToken ts).

Declare Scope thunk_scope.
Delimit Scope thunk_scope with thunk.
Notation "x <- m ;; k" := (bind m (fun x => k))
  (at level 61, m at next level, right associativity) : thunk_scope.
Notation "m ;; k" := (bind m (fun _ => k))
  (at level 61, right associativity) : thunk_scope.
Notation "'try' m 'catch' h" := (try_catch m h)
  (at level 62, m at level 61, h at level 61) : thunk_scope.
Local Open Scope thunk_scope.

(** What a payload creator returns: a value, or [rejectWithValue(v)]. *)
Inductive outcome (P : Type) : Type :=
| Fulfill : P -> outcome P
| RejectWithValue : jsstring -> outcome P.

Arguments Fulfill {P} _.
Arguments RejectWithValue {P} _.

(** *** The world outside the slice *)

(** The answers of the server and the clock during one dispatch. *)
Record Env : Type := mkEnv {
  (** the current time, as [isTokenExpired] reads it *)
  now : Z;
  (** [loginByEmail(email, password)] *)
  loginByEmail : jsstring -> jsstring -> result LoginResponse;
  (** [refreshAccessToken()] *)
  refreshAccessToken : result TokenResponse;
  (** [API.get(`/citizens/find-by-email?email=${email}`)], resolved
      value [response.data.data] *)
  get_find_by_email : jsstring -> result User;
  (** [API.get("/citizens/me", { headers })], resolved value
      [response.data.data] *)
  get_me : Token -> result User;
  (** [API.post("/citizens/add", payload)], resolved value
      [response.data] *)
  post_citizens_add : result jsstring;
  (** [API.put("/citizens/change-password", payload)] *)
  put_change_password : result jsstring
}.

(** *** Actions *)

Inductive action : Type :=
| logout
| clearError
| checkAuth_pending
| checkAuth_fulfilled (payload : AuthPayload)
| checkAuth_rejected (payload : option jsstring)
| loginByEmailThunk_pending
| loginByEmailThunk_fulfilled (payload : AuthPayload)
| loginByEmailThunk_rejected (payload : option jsstring)
| refreshTokenThunk_pending
| refreshTokenThunk_fulfilled (payload : AuthPayload)
| refreshTokenThunk_rejected (payload : option jsstring)
| registerCitizen_pending
| registerCitizen_fulfilled (payload : jsstring)
| registerCitizen_rejected (payload : option jsstring)
| changePassword_pending
| changePassword_fulfilled (payload : jsstring)
| changePassword_rejected (payload : option jsstring)
| fetchCurrentUser_pending
| fetchCurrentUser_fulfilled (payload : User)
| fetchCurrentUser_rejected (payload : option jsstring)
| logoutThunk_pending
| logoutThunk_fulfilled
| logoutThunk_rejected (payload : option jsstring).

(** *** Payload creators *)

Definition checkAuth (env : Env) : M (outcome AuthPayload) :=
  try
    (token <- get_token ;;
     match token with
     | None =>
         (* If no token, clear state and reject *)
         remove_token ;;
         ret (RejectWithValue (js "No authentication token found"))
     | Some token =>
         (* If token exists, check if it's expired; [Some] is a value
            returned from inside the block, [None] falls out of it *)
         returned <-
           (if isTokenExpired (now env) token
            then
              try
                (refreshResponse <- await (refreshAccessToken env) ;;
                 match data refreshResponse with
                 | Some new_token =>
                     set_token new_token ;;
                     userResponse <-
                       await (get_find_by_email env (sub new_token)) ;;
                     ret (Some (Fulfill
                                  (mkAuthPayload new_token userResponse)))
                 | None => ret None
                 end)
              catch
                (fun refreshError =>
                   remove_token ;;
                   throw (Error (js "Token refresh failed")))
            else ret None) ;;
         match returned with
         | Some value => ret value
         | None =>
             (* Token is valid, fetch user data *)
             try
               (userResponse <-
                  await (get_find_by_email env (sub token)) ;;
                ret (Fulfill (mkAuthPayload token userResponse)))
             catch
               (fun userError =>
                  remove_token ;;
                  throw (Error (js "Failed to fetch user data")))
         end
     end)
  catch
    (fun error =>
       remove_token ;;
       ret (RejectWithValue (or_default (response_message error) []))).

Definition loginByEmailThunk (env : Env) (credentials : LoginByEmailPayload)
  : M (outcome AuthPayload) :=
  try
    (response <-
       await (loginByEmail env (credentials_email credentials)
                (credentials_password credentials)) ;;
     set_token (accessToken response) ;;
     (* Fetch complete user data *)
     userResponse <-
       await (get_find_by_email env (credentials_email credentials)) ;;
     ret (Fulfill (mkAuthPayload (accessToken response) userResponse)))
  catch
    (fun error =>
       ret (RejectWithValue
              (or_default (response_message error)
                 (js "Invalid credentials")))).

Definition refreshTokenThunk (env : Env) : M (outcome AuthPayload) :=
  try
    (response <- await (refreshAccessToken env) ;;
     match data response with
     | Some new_token =>
         set_token new_token ;;
         (* Fetch user data using the token *)
         userResponse <- await (get_me env new_token) ;;
         ret (Fulfill
                (mkAuthPayload new_token
                   (mkUser (id userResponse) (fullName userResponse)
                      (email userResponse) (phoneNumber userResponse)
                      (or_default (Some (languagePreference userResponse))
                         (js "en"))
                      (or_default (Some (location userResponse)) []))))
     | None => throw (Error (js "No access token received"))
     end)
  catch
    (fun error =>
       ret (RejectWithValue
              (or_default (response_message error)
                 (js "Token refresh failed")))).

Definition registerCitizen (env : Env) : M (outcome jsstring) :=
  try
    (response <- await (post_citizens_add env) ;;
     ret (Fulfill response))
  catch
    (fun error =>
       ret (RejectWithValue
              (or_default (response_message error)
                 (js "Registration failed")))).

Definition changePassword (env : Env) : M (outcome jsstring) :=
  try
    (response <- await (put_change_password env) ;;
     ret (Fulfill response))
  catch
    (fun error =>
       ret (RejectWithValue
              (or_default (response_message error)
                 (js "Password change failed")))).

Definition fetchCurrentUser (env : Env) : M (outcome User) :=
  try
    (token <- get_token ;;
     match token with
     | None => throw (Error (js "No access token found"))
     | Some token =>
         (* Get email from token *)
         let email := sub token in
         (* Fetch complete user data *)
         response <- await (get_find_by_email env email) ;;
         ret (Fulfill response)
     end)
  catch
    (fun error =>
       ret (RejectWithValue
              (or_default (response_message error)
                 (js "Failed to fetch user data")))).

(** In the slice module the name [logout] is bound only by
    [export const { logout, clearError } = authSlice.actions]: nothing of
    that name is imported from the auth service.  So [logout()] builds
    the action object of the [logout] reducer, and [await] hands it back
    at once; the action is not dispatched. *)
Definition logoutThunk : M (outcome unit) :=
  try
    (_ <- ret logout ;;
     ret (Fulfill tt))
  catch
    (fun error => ret (RejectWithValue (js "Logout failed"))).

(** *** Reducer *)

(** The slice state together with the token store that some case
    reducers write. *)
Record World : Type := mkWorld {
  store : TokenStore;
  auth : AuthState
}.

(** [initialState], computed from the token store when the module loads. *)
Definition initialState (ts : TokenStore) : AuthState :=
  mkAuthState
    (match getAccessToken ts with Some _ => true | None => false end)
    None false None.

Definition init (ts : TokenStore) : World := mkWorld ts (initialState ts).

(** The slice reducer; an action without a case leaves the state as it
    is. *)
Definition reducer (w : World) (a : action) : World :=
  let state := auth w in
  match a with
  | logout =>
      mkWorld (removeAccessToken (store w))
        (mkAuthState false None (loading state) None)
  | clearError =>
      mkWorld (store w)
        (mkAuthState (isAuthenticated state) (user state) (loading state)
           None)
  (* Check Auth *)
  | checkAuth_pending =>
      mkWorld (store w)
        (mkAuthState (isAuthenticated state) (user state) true None)
  | checkAuth_fulfilled payload =>
      mkWorld (store w)
        (mkAuthState true (Some (citizen payload)) false None)
  | checkAuth_rejected payload =>
      mkWorld (removeAccessToken (store w))
        (mkAuthState false None false payload)
  (* Login by Email *)
  | loginByEmailThunk_pending =>
      mkWorld (store w)
        (mkAuthState (isAuthenticated state) (user state) true None)
  | loginByEmailThunk_fulfilled payload =>
      mkWorld (store w)
        (mkAuthState true (Some (citizen payload)) false None)
  | loginByEmailThunk_rejected payload =>
      mkWorld (removeAccessToken (store w))
        (mkAuthState false None false payload)
  (* Refresh Token *)
  | refreshTokenThunk_pending =>
      mkWorld (store w)
        (mkAuthState (isAuthenticated state) (user state) true None)
  | refreshTokenThunk_fulfilled payload =>
      mkWorld (store w)
        (mkAuthState true (Some (citizen payload)) false (error state))
  | refreshTokenThunk_rejected payload =>
      mkWorld (store w) (mkAuthState false None false payload)
  (* Fetch Current User *)
  | fetchCurrentUser_pending =>
      mkWorld (store w)
        (mkAuthState (isAuthenticated state) (user state) true None)
  | fetchCurrentUser_fulfilled payload =>
      mkWorld (store w)
        (mkAuthState (isAuthenticated state) (Some payload) false
           (error state))
  | fetchCurrentUser_rejected payload =>
      mkWorld (store w) (mkAuthState false None false payload)
  (* Logout *)
  | logoutThunk_pending =>
      mkWorld (store w)
        (mkAuthState (isAuthenticated state) (user state) true None)
  | logoutThunk_fulfilled =>
      mkWorld (store w) (mkAuthState false None false None)
  | logoutThunk_rejected payload =>
      mkWorld (store w)
        (mkAuthState (isAuthenticated state) (user state) false payload)
  | registerCitizen_pending
  | registerCitizen_fulfilled _
  | registerCitizen_rejected _
  | changePassword_pending
  | changePassword_fulfilled _
  | changePassword_rejected _ => w
  end.

(** *** Dispatching a thunk *)

(** The action a settled payload creator dispatches: [fulfilled] with the
    returned value, [rejected] with the [rejectWithValue] payload, or
    [rejected] without payload when the creator itself threw. *)
Definition settle {P : Type} (fulfilled : P -> action)
    (rejected : option jsstring -> action) (r : outcome P + exn) : action :=
  match r with
  | inl (Fulfill p) => fulfilled p
  | inl (RejectWithValue v) => rejected (Some v)
  | inr _ => rejected None
  end.

(** One dispatch of an async thunk, run to completion: the pending
    action, the payload creator on the token store, the settled action.
    It returns the final world and the settled action. *)
Definition dispatch_thunk {P : Type} (pending : action)
    (fulfilled : P -> action) (rejected : option jsstring -> action)
    (creator : M (outcome P)) (w : World) : World * action :=
  let w1 := reducer w pending in
  let '(r, ts) := creator (store w1) in
  let settled := settle fulfilled rejected r in
  (reducer (mkWorld ts (auth w1)) settled, settled).

(** What the application can dispatch to the slice. *)
Inductive request : Type :=
| do_logout
| do_clearError
| do_checkAuth
| do_loginByEmail (credentials : LoginByEmailPayload)
| do_refreshToken
| do_registerCitizen
| do_changePassword
| do_fetchCurrentUser
| do_logoutThunk.

(** The pending action of a thunk request (none for a plain action). *)
Definition pending_of (q : request) : option action :=
  match q with
  | do_logout | do_clearError => None
  | do_checkAuth => Some checkAuth_pending
  | do_loginByEmail _ => Some loginByEmailThunk_pending
  | do_refreshToken => Some refreshTokenThunk_pending
  | do_registerCitizen => Some registerCitizen_pending
  | do_changePassword => Some changePassword_pending
  | do_fetchCurrentUser => Some fetchCurrentUser_pending
  | do_logoutThunk => Some logoutThunk_pending
  end.

Definition dispatch (env : Env) (q : request) (w : World) : World * action :=
  match q with
  | do_logout => (reducer w logout, logout)
  | do_clearError => (reducer w clearError, clearError)
  | do_checkAuth =>
      dispatch_thunk checkAuth_pending checkAuth_fulfilled
        checkAuth_rejected (checkAuth env) w
  | do_loginByEmail credentials =>
      dispatch_thunk loginByEmailThunk_pending loginByEmailThunk_fulfilled
        loginByEmailThunk_rejected (loginByEmailThunk env credentials) w
  | do_refreshToken =>
      dispatch_thunk refreshTokenThunk_pending refreshTokenThunk_fulfilled
        refreshTokenThunk_rejected (refreshTokenThunk env) w
  | do_registerCitizen =>
      dispatch_thunk registerCitizen_pending registerCitizen_fulfilled
        registerCitizen_rejected (registerCitizen env) w
  | do_changePassword =>
      dispatch_thunk changePassword_pending changePassword_fulfilled
        changePassword_rejected (changePassword env) w
  | do_fetchCurrentUser =>
      dispatch_thunk fetchCurrentUser_pending fetchCurrentUser_fulfilled
        fetchCurrentUser_rejected (fetchCurrentUser env) w
  | do_logoutThunk =>
      dispatch_thunk logoutThunk_pending (fun _ : unit => logoutThunk_fulfilled)
        logoutThunk_rejected logoutThunk w
  end.

(** *** Thunks that suspend *)

(** A payload creator as the event loop runs it: accesses to the token
    store, and a [Suspend] wherever the source awaits.  Between a
    suspension and its resumption other code may run. *)
Inductive prog (A : Type) : Type :=
| Ret : A -> prog A
| Throw : exn -> prog A
| GetToken : (option Token -> prog A) -> prog A
| SetToken : Token -> prog A -> prog A
| RemoveToken : prog A -> prog A
| Suspend : prog A -> prog A.

Arguments Ret {A} _.
Arguments Throw {A} _.
Arguments GetToken {A} _.
Arguments SetToken {A} _ _.
Arguments RemoveToken {A} _.
Arguments Suspend {A} _.

Fixpoint pbind {A B : Type} (p : prog A) (k : A -> prog B) : prog B :=
  match p with
  | Ret a => k a
  | Throw e => Throw e
  | GetToken f => GetToken (fun t => pbind (f t) k)
  | SetToken t p' => SetToken t (pbind p' k)
  | RemoveToken p' => RemoveToken (pbind p' k)
  | Suspend p' => Suspend (pbind p' k)
  end.

Fixpoint ptry {A : Type} (p : prog A) (handler : exn -> prog A) : prog A :=
  match p with
  | Ret a => Ret a
  | Throw e => handler e
  | GetToken f => GetToken (fun t => ptry (f t) handler)
  | SetToken t p' => SetToken t (ptry p' handler)
  | RemoveToken p' => RemoveToken (ptry p' handler)
  | Suspend p' => Suspend (ptry p' handler)
  end.

(** [await call]: the creator is suspended until the call has answered. *)
Definition pawait {A : Type} (r : result A) : prog A :=
  Suspend
    match r with
    | Resolved a => Ret a
    | Thrown m => Throw (HttpError m)
    end.

Definition read_token : prog (option Token) := GetToken (fun t => Ret t).

Definition write_token (t : Token) : prog unit := SetToken t (Ret tt).

Definition drop_token : prog unit := RemoveToken (Ret tt).

(** A creator run without interruption. *)
Fixpoint run {A : Type} (p : prog A) : M A :=
  fun ts =>
    match p with
    | Ret a => (inl a, ts)
    | Throw e => (inr e, ts)
    | GetToken f => run (f (getAccessToken ts)) ts
    | SetToken t p' => run p' (setAccessToken t ts)
    | RemoveToken p' => run p' (removeAccessToken ts)
    | Suspend p' => run p' ts
    end.

(** A creator between two turns of the event loop: it has returned or
    thrown, or it waits at an [await] with the rest still to run. *)
Inductive paused (A : Type) : Type :=
| Finished : A + exn -> paused A
| Waiting : prog A -> paused A.

Arguments Finished {A} _.
Arguments Waiting {A} _.

(** One turn: the creator runs up to its next [await], or to its end. *)
Fixpoint advance {A : Type} (p : prog A) (ts : TokenStore)
  : paused A * TokenStore :=
  match p with
  | Ret a => (Finished (inl a), ts)
  | Throw e => (Finished (inr e), ts)
  | GetToken f => advance (f (getAccessToken ts)) ts
  | SetToken t p' => advance p' (setAccessToken t ts)
  | RemoveToken p' => advance p' (removeAccessToken ts)
  | Suspend p' => (Waiting p', ts)
  end.

Declare Scope steps_scope.
Delimit Scope steps_scope with steps.
Notation "x <- m ;; k" := (pbind m (fun x => k))
  (at level 61, m at next level, right associativity) : steps_scope.
Notation "m ;; k" := (pbind m (fun _ => k))
  (at level 61, right associativity) : steps_scope.
Notation "'try' m 'catch' h" := (ptry m h)
  (at level 62, m at level 61, h at level 61) : steps_scope.
Local Open Scope steps_scope.

(** The payload creators once more, with their suspension points. *)

Definition checkAuth_steps (env : Env) : prog (outcome AuthPayload) :=
  try
    (token <- read_token ;;
     match token with
     | None =>
         drop_token ;;
         Ret (RejectWithValue (js "No authentication token found"))
     | Some token =>
         returned <-
           (if isTokenExpired (now env) token
            then
              try
                (refreshResponse <- pawait (refreshAccessToken env) ;;
                 match data refreshResponse with
                 | Some new_token =>
                     write_token new_token ;;
                     userResponse <-
                       pawait (get_find_by_email env (sub new_token)) ;;
                     Ret (Some (Fulfill
                                  (mkAuthPayload new_token userResponse)))
                 | None => Ret None
                 end)
              catch
                (fun refreshError =>
                   drop_token ;;
                   Throw (Error (js "Token refresh failed")))
            else Ret None) ;;
         match returned with
         | Some value => Ret value
         | None =>
             try
               (userResponse <-
                  pawait (get_find_by_email env (sub token)) ;;
                Ret (Fulfill (mkAuthPayload token userResponse)))
             catch
               (fun userError =>
                  drop_token ;;
                  Throw (Error (js "Failed to fetch user data")))
         end
     end)
  catch
    (fun error =>
       drop_token ;;
       Ret (RejectWithValue (or_default (response_message error) []))).

Definition loginByEmailThunk_steps (env : Env)
    (credentials : LoginByEmailPayload) : prog (outcome AuthPayload) :=
  try
    (response <-
       pawait (loginByEmail env (credentials_email credentials)
                 (credentials_password credentials)) ;;
     write_token (accessToken response) ;;
     userResponse <-
       pawait (get_find_by_email env (credentials_email credentials)) ;;
     Ret (Fulfill (mkAuthPayload (accessToken response) userResponse)))
  catch
    (fun error =>
       Ret (RejectWithValue
              (or_default (response_message error)
                 (js "Invalid credentials")))).

Definition refreshTokenThunk_steps (env : Env) : prog (outcome AuthPayload) :=
  try
    (response <- pawait (refreshAccessToken env) ;;
     match data response with
     | Some new_token =>
         write_token new_token ;;
         userResponse <- pawait (get_me env new_token) ;;
         Ret (Fulfill
                (mkAuthPayload new_token
                   (mkUser (id userResponse) (fullName userResponse)
                      (email userResponse) (phoneNumber userResponse)
                      (or_default (Some (languagePreference userResponse))
                         (js "en"))
                      (or_default (Some (location userResponse)) []))))
     | None => Throw (Error (js "No access token received"))
     end)
  catch
    (fun error =>
       Ret (RejectWithValue
              (or_default (response_message error)
                 (js "Token refresh failed")))).

Definition registerCitizen_steps (env : Env) : prog (outcome jsstring) :=
  try
    (response <- pawait (post_citizens_add env) ;;
     Ret (Fulfill response))
  catch
    (fun error =>
       Ret (RejectWithValue
              (or_default (response_message error)
                 (js "Registration failed")))).

Definition changePassword_steps (env : Env) : prog (outcome jsstring) :=
  try
    (response <- pawait (put_change_password env) ;;
     Ret (Fulfill response))
  catch
    (fun error =>
       Ret (RejectWithValue
              (or_default (response_message error)
                 (js "Password change failed")))).

Definition fetchCurrentUser_steps (env : Env) : prog (outcome User) :=
  try
    (token <- read_token ;;
     match token with
     | None => Throw (Error (js "No access token found"))
     | Some token =>
         let email := sub token in
         response <- pawait (get_find_by_email env email) ;;
         Ret (Fulfill response)
     end)
  catch
    (fun error =>
       Ret (RejectWithValue
              (or_default (response_message error)
                 (js "Failed to fetch user data")))).

(** [await logout()] awaits the action object the action creator
    returned: the creator is resumed in a later turn. *)
Definition logoutThunk_steps : prog (outcome unit) :=
  try
    (_ <- Suspend (Ret logout) ;;
     Ret (Fulfill tt))
  catch
    (fun error => Ret (RejectWithValue (js "Logout failed"))).

(** *** The slice with thunks in flight *)

(** A thunk in flight: how its outcome becomes an action, and where its
    creator stands. *)
Inductive job : Type :=
| mkJob : forall P : Type,
    (P -> action) -> (option jsstring -> action) -> paused (outcome P) -> job.

Record System : Type := mkSystem {
  world : World;
  inflight : list job
}.

(** What happens in one turn of the event loop: the application
    dispatches, or the [i]-th thunk in flight goes on. *)
Inductive event : Type :=
| dispatched : Env -> request -> event
| resumed : nat -> event.

(** A dispatched thunk reduces its pending action and runs its creator up
    to the first [await], within the dispatch. *)
Definition launch {P : Type} (pending : action) (fulfilled : P -> action)
    (rejected : option jsstring -> action) (steps : prog (outcome P))
    (s : System) : System :=
  let w1 := reducer (world s) pending in
  let '(state, ts) := advance steps (store w1) in
  mkSystem (mkWorld ts (auth w1))
    (mkJob fulfilled rejected state :: inflight s).

Fixpoint remove_nth {A : Type} (i : nat) (l : list A) : list A :=
  match i, l with
  | _, [] => []
  | O, _ :: rest => rest
  | S i', x :: rest => x :: remove_nth i' rest
  end.

Fixpoint replace_nth {A : Type} (i : nat) (y : A) (l : list A) : list A :=
  match i, l with
  | _, [] => []
  | O, _ :: rest => y :: rest
  | S i', x :: rest => x :: replace_nth i' y rest
  end.

Definition react (e : event) (s : System) : System :=
  match e with
  | dispatched env q =>
      match q with
      | do_logout => mkSystem (reducer (world s) logout) (inflight s)
      | do_clearError => mkSystem (reducer (world s) clearError) (inflight s)
      | do_checkAuth =>
          launch checkAuth_pending checkAuth_fulfilled checkAuth_rejected
            (checkAuth_steps env) s
      | do_loginByEmail credentials =>
          launch loginByEmailThunk_pending loginByEmailThunk_fulfilled
            loginByEmailThunk_rejected
            (loginByEmailThunk_steps env credentials) s
      | do_refreshToken =>
          launch refreshTokenThunk_pending refreshTokenThunk_fulfilled
            refreshTokenThunk_rejected (refreshTokenThunk_steps env) s
      | do_registerCitizen =>
          launch registerCitizen_pending registerCitizen_fulfilled
            registerCitizen_rejected (registerCitizen_steps env) s
      | do_changePassword =>
          launch changePassword_pending changePassword_fulfilled
            changePassword_rejected (changePassword_steps env) s
      | do_fetchCurrentUser =>
          launch fetchCurrentUser_pending fetchCurrentUser_fulfilled
            fetchCurrentUser_rejected (fetchCurrentUser_steps env) s
      | do_logoutThunk =>
          launch logoutThunk_pending
            (fun _ : unit => logoutThunk_fulfilled) logoutThunk_rejected
            logoutThunk_steps s
      end
  | resumed i =>
      match nth_error (inflight s) i with
      | None => s
      | Some (mkJob fulfilled rejected state) =>
          match state with
          | Finished r =>
              (* the creator is done: the settled action is dispatched *)
              mkSystem (reducer (world s) (settle fulfilled rejected r))
                (remove_nth i (inflight s))
          | Waiting p =>
              (* the awaited call has answered: the creator goes on *)
              let '(state', ts) := advance p (store (world s)) in
              mkSystem (mkWorld ts (auth (world s)))
                (replace_nth i (mkJob fulfilled rejected state')
                   (inflight s))
          end
      end
  end.

(** The events of a list, first to last. *)
Definition play (events : list event) (s : System) : System :=
  fold_left (fun s e => react e s) events s.

(** The states the slice can be in, thunks overlapping at will, when the
    token store held [ts0] at initialization. *)
Inductive reachable_from (ts0 : TokenStore) : System -> Prop :=
| reachable_start : reachable_from ts0 (mkSystem (init ts0) [])
| reachable_react : forall e s,
    reachable_from ts0 s -> reachable_from ts0 (react e s).

(** The same when dispatches do not overlap: the application dispatches
    only when no thunk is in flight. *)
Inductive reachable_in_turn (ts0 : TokenStore) : System -> Prop :=
| in_turn_start : reachable_in_turn ts0 (mkSystem (init ts0) [])
| in_turn_dispatch : forall env q s,
    reachable_in_turn ts0 s -> inflight s = [] ->
    reachable_in_turn ts0 (react (dispatched env q) s)
| in_turn_resume : forall i s,
    reachable_in_turn ts0 s -> reachable_in_turn ts0 (react (resumed i) s).

(** While [isAuthenticated] is set a token is stored. *)
Definition has_token (w : World) : Prop :=
  isAuthenticated (auth w) = true -> store w <> None.

(** Without overlap at most one thunk is in flight, and letting it run
    to its end gives a state in which [isAuthenticated] goes with a
    stored token. *)
Definition in_turn_invariant (s : System) : Prop :=
  match inflight s with
  | [] => has_token (world s)
  | [mkJob fulfilled rejected (Finished r)] =>
      has_token (reducer (world s) (settle fulfilled rejected r))
  | [mkJob fulfilled rejected (Waiting p)] =>
      has_token
        (reducer
           (mkWorld (snd (run p (store (world s)))) (auth (world s)))
           (settle fulfilled rejected (fst (run p (store (world s))))))
  | _ :: _ :: _ => False
  end.

End AuthSlice.

(* ================================================================= *)
(** ** Routing: the route guard and the login screen *)

Module Router.

(** A router location.  [from] is [state?.from]: the location a redirect
    recorded in the navigation state, when it recorded one. *)
#[local] Set Warnings "-register-all".
Inductive Location : Type := mkLocation {
  pathname : jsstring;
  search : jsstring;
  hash : jsstring;
  from : option Location
}.

(** A navigation: [<Navigate to state replace />] or
    [navigate(to, { state, replace })]. *)
Record Navigation : Type := mkNavigation {
  to : jsstring;
  state_from : option Location;
  replace : bool
}.

(** The location a navigation leads to when [to] is a bare path, as all
    targets of these screens are: no query string and no fragment. *)
Definition destination (n : Navigation) : Location :=
  mkLocation (to n) [] [] (state_from n).

(** What a guarded route renders. *)
Inductive element (C : Type) : Type :=
| Children : C -> element C
| Navigate : Navigation -> element C.

Arguments Children {C} _.
Arguments Navigate {C} _.

(** [ProtectedRoute]; [isAuthenticated] is the value the component reads
    from the auth state. *)
Definition ProtectedRoute {C : Type} (isAuthenticated : bool)
    (location : Location) (children : C) : element C :=
  if negb isAuthenticated
  then
    (* Redirect to login page but save the location they were trying to
       access *)
    Navigate (mkNavigation (js "/login") (Some location) true)
  else Children children.

End Router.

Module Login.

Import Router.

(** [location.state?.from?.pathname || "/dashboard"] *)
Definition from_path (location : Location) : jsstring :=
  or_default (option_map pathname (from location)) (js "/dashboard").

(** The navigation issued while rendering: if already authenticated,
    redirect. *)
Definition render (isAuthenticated : bool) (location : Location)
  : option Navigation :=
  if isAuthenticated
  then Some (mkNavigation (from_path location) None true)
  else None.

(** [handleEmailLogin]: the world after the handler, and the navigation it
    issued, if any. *)
Definition handleEmailLogin (env : AuthSlice.Env) (location : Location)
    (email password : jsstring) (w : AuthSlice.World)
  : AuthSlice.World * option Navigation :=
  if negb (truthy email) || negb (truthy password)
  then (fst (AuthSlice.dispatch env AuthSlice.do_clearError w), None)
  else
    let '(w', settled) :=
      AuthSlice.dispatch env
        (AuthSlice.do_loginByEmail
           (AuthSlice.mkLoginByEmailPayload email password)) w in
    match settled with
    | AuthSlice.loginByEmailThunk_fulfilled _ =>
        (* [unwrap()] returned *)
        (w', Some (mkNavigation (from_path location) None true))
    | _ =>
        (* [unwrap()] threw; the error is only logged *)
        (w', None)
    end.

End Login.

(* ================================================================= *)
(** ** Registration screen: submitting the form *)

Module RegisterFlow.

Definition setRegistrationError (v : option jsstring) (st : Register.State)
  : Register.State :=
  Register.mkState (Register.formData st) (Register.formErrors st)
    (Register.isVerifying st) (Register.isEmailVerified st)
    (Register.showOtpModal st) (Register.otp st)
    (Register.verificationError st) (Register.verificationLoading st) v
    (Register.toasts st).

Definition already_registered : jsstring :=
  js "This email or phone number is already registered. Please log in or use a different contact method.".

(** [handleRegister]: the screen state and the world after the handler,
    and the path it navigates to, if any.  [toLowerCase] stands for
    [String.prototype.toLowerCase], which is not modelled. *)
Definition handleRegister (toLowerCase : jsstring -> jsstring)
    (env : AuthSlice.Env) (st : Register.State) (w : AuthSlice.World)
  : Register.State * AuthSlice.World * option jsstring :=
  let '(isValid, st) := Register.run_validateForm st in
  if negb isValid then (st, w, None)
  else
    (* Clear any previous errors *)
    let w := fst (AuthSlice.dispatch env AuthSlice.do_clearError w) in
    let st := setRegistrationError None st in
    let '(w, resultAction) :=
      AuthSlice.dispatch env AuthSlice.do_registerCitizen w in
    match resultAction with
    | AuthSlice.registerCitizen_fulfilled _ =>
        (Register.toast
           (mkToast false (js "Registration Successful")
              (js "Your account has been created. Please login to continue."))
           st,
         w, Some (js "/login"))
    | AuthSlice.registerCitizen_rejected payload =>
        (* Handle the rejection payload: a string here; without one the
           default text stays *)
        let errorMessage :=
          match payload with
          | Some text => text
          | None => js "Registration failed. Please try again."
          end in
        (* Check for specific error messages *)
        let errorMessage :=
          if includes (toLowerCase errorMessage) (js "citizen already exists")
             || includes (toLowerCase errorMessage) (js "already registered")
             || includes (toLowerCase errorMessage) (js "already exists")
          then already_registered
          else errorMessage in
        (* Set the detailed error message *)
        (Register.toast
           (mkToast true (js "Registration Failed") errorMessage)
           (setRegistrationError (Some errorMessage) st),
         w, None)
    | _ => (st, w, None)
    end.

End RegisterFlow.

(* ================================================================= *)
(** ** Navigation bar *)

Module Navbar.

(** [handleLogout]: the world after the handler, the toast it shows and
    the path it navigates to, if any. *)
Definition handleLogout (env : AuthSlice.Env) (w : AuthSlice.World)
  : AuthSlice.World * Toast * option jsstring :=
  let '(w', settled) := AuthSlice.dispatch env AuthSlice.do_logoutThunk w in
  match settled with
  | AuthSlice.logoutThunk_fulfilled =>
      (* [unwrap()] returned *)
      (w', mkToast false (js "Success") (js "Logged out successfully"),
       (* Redirect to landing page *)
       Some (js "/"))
  | _ =>
      (* [unwrap()] threw *)
      (w',
       mkToast true (js "Error") (js "Failed to logout. Please try again."),
       None)
  end.

End Navbar.

(* ================================================================= *)
(** ** Sample data *)

Module Samples.

Import AuthService AuthSlice.

Definition alice : User :=
  mkUser (js "42") (js "Alice Uwase") (js "alice@example.com")
    (js "+250 788 000 000") (js "en") (js "Kigali").

(** A token that expires at time 1000, and one that expires at 5000. *)
Definition old_token : Token := mkToken (js "alice@example.com") 1000.
Definition new_token : Token := mkToken (js "alice@example.com") 5000.

(** A signed-in state. *)
Definition signed_in : World :=
  mkWorld (Some new_token) (mkAuthState true (Some alice) false None).

(** At time 2000 the server is unreachable: every call fails without a
    response. *)
Definition offline : Env :=
  mkEnv 2000 (fun _ _ => Thrown None) (Thrown None) (fun _ => Thrown None)
    (fun _ => Thrown None) (Thrown None) (Thrown None).

(** At time 2000 the refresh call resolves without a token in [data],
    while the profile lookup answers. *)
Definition refresh_without_token : Env :=
  mkEnv 2000 (fun _ _ => Thrown None)
    (Resolved (mkTokenResponse (js "No refresh token") None))
    (fun _ => Resolved alice) (fun _ => Resolved alice)
    (Thrown None) (Thrown None).

(** At time 2000 the server answers every call; a login or a refresh
    hands out [new_token]. *)
Definition online : Env :=
  mkEnv 2000
    (fun _ _ => Resolved (mkLoginResponse new_token (js "refresh-1")))
    (Resolved (mkTokenResponse (js "Token refreshed") (Some new_token)))
    (fun _ => Resolved alice) (fun _ => Resolved alice)
    (Resolved (js "Citizen registered")) (Resolved (js "Password changed")).

(** A logout that falls between the two ends of a check-auth: the
    check-auth is dispatched and waits for the profile lookup, the user
    logs out, the lookup answers, and the check-auth settles. *)
Definition logout_during_checkAuth : list AuthSlice.event :=
  [AuthSlice.dispatched online AuthSlice.do_checkAuth;
   AuthSlice.dispatched online AuthSlice.do_logout;
   AuthSlice.resumed 0;
   AuthSlice.resumed 0].

(** A check-auth on an expired token while the server cannot be
    reached: it is dispatched and waits for the refresh call, which
    fails. *)
Definition refresh_fails_during_checkAuth : list AuthSlice.event :=
  [AuthSlice.dispatched offline AuthSlice.do_checkAuth;
   AuthSlice.resumed 0].

(** A registration screen with six OTP digits typed in and the email not
    yet verified. *)
Definition awaiting_otp : Register.State :=
  Register.mkState
    (Register.mkFormData (js "Alice Uwase") (js "alice@example.com") []
       (js "en") (js "Kigali") (js "Secret123") (js "Secret123"))
    (Register.FormErrors.mk [] [] [] [])
    false false true
    [js "1"; js "2"; js "3"; js "4"; js "5"; js "6"]
    [] false None [].

(** The same screen once the email has been verified. *)
Definition email_verified : Register.State :=
  Register.setShowOtpModal false
    (Register.setIsEmailVerified true awaiting_otp).

(** A registration form that gives a phone number and no email. *)
Definition phone_only_form : Register.FormData :=
  Register.mkFormData (js "Alice Uwase") [] (js "+250 788 000 000")
    (js "en") (js "Kigali") (js "Secret123") (js "Secret123").

(** The forgot-password screen with a text that is no email. *)
Definition forgot_with_typo : ForgotPassword.State :=
  ForgotPassword.mkState (js "alice.example.com") false false None [].

(** The reset-password screen opened with a token, both fields filled
    with an acceptable password. *)
Definition reset_ready : ResetPassword.State :=
  ResetPassword.handleChange ResetPassword.confirmPassword_field
    (js "Str0ng!Pass")
    (ResetPassword.handleChange ResetPassword.password_field
       (js "Str0ng!Pass")
       (ResetPassword.initial (Some (js "reset-token-1")))).

(** The same screen opened without a token. *)
Definition reset_without_token : ResetPassword.State :=
  ResetPassword.handleChange ResetPassword.confirmPassword_field
    (js "Str0ng!Pass")
    (ResetPassword.handleChange ResetPassword.password_field
       (js "Str0ng!Pass") (ResetPassword.initial None)).

(** A profile that carries no language preference. *)
Definition bob : User :=
  mkUser (js "43") (js "Bob Mugisha") (js "bob@example.com")
    (js "+250 788 111 111") [] (js "Huye").

(** At time 2000 the server answers every call, with the profile of
    [bob]. *)
Definition online_bob : Env :=
  mkEnv 2000
    (fun _ _ => Resolved (mkLoginResponse new_token (js "refresh-1")))
    (Resolved (mkTokenResponse (js "Token refreshed") (Some new_token)))
    (fun _ => Resolved bob) (fun _ => Resolved bob)
    (Resolved (js "Citizen registered")) (Resolved (js "Password changed")).

(** A protected page requested with a query string. *)
Definition case_page : Router.Location :=
  Router.mkLocation (js "/cases") (js "?id=7") [] None.

End Samples.

(* ================================================================= *)
(** ** The documented behaviour, in its own words *)

Module Documented.

(** The five criteria of the strength scorer as the documentation lists
    them: uppercase, lowercase, digit, special character, minimum
    length 8; and how many of them a password passes. *)
Definition has_uppercase (password : jsstring) : bool :=
  existsb upper password.
Definition has_lowercase (password : jsstring) : bool :=
  existsb lower password.
Definition has_digit (password : jsstring) : bool :=
  existsb digit password.
Definition has_special (password : jsstring) : bool :=
  existsb special password.
Definition long_enough (password : jsstring) : bool :=
  Nat.leb 8 (List.length password).

Definition criteria_passed (password : jsstring) : nat :=
  Nat.b2n (has_uppercase password) + Nat.b2n (has_lowercase password)
  + Nat.b2n (has_digit password) + Nat.b2n (has_special password)
  + Nat.b2n (long_enough password).

(** The message a server answer carries, whether the call resolved or
    failed. *)
Definition reply_message (r : result (option ApiResponse))
  : option jsstring :=
  match r with
  | Resolved data => message_of data
  | Thrown m => m
  end.

Definition resolved (r : result (option ApiResponse)) : bool :=
  match r with
  | Resolved _ => true
  | Thrown _ => false
  end.

(** A box of the OTP input: empty, or one digit. *)
Definition otp_box (d : jsstring) : bool :=
  match d with
  | [] => true
  | [c] => digit c
  | _ :: _ :: _ => false
  end.

(** The OTP buffer as the screen keeps it: six boxes. *)
Definition otp_well_formed (o : list jsstring) : Prop :=
  List.length o = 6 /\ forallb otp_box o = true.

(** The strengths in increasing order. *)
Definition strength_rank (s : ResetPassword.strength) : nat :=
  match s with
  | ResetPassword.weak => 0
  | ResetPassword.medium => 1
  | ResetPassword.strong => 2
  end.

(** The strength display of the reset-password screen is up to date:
    nothing is shown while the password is still empty and untouched, or
    the strength of the password now in the form is shown. *)
Definition strength_fresh (st : ResetPassword.State) : Prop :=
  (ResetPassword.passwordStrength st = None
   /\ ResetPassword.password (ResetPassword.formData st) = [])
  \/ ResetPassword.passwordStrength st
     = Some (ResetPassword.checkPasswordStrength
               (ResetPassword.password (ResetPassword.formData st))).

(** The part of a phone number after an optional leading "+". *)
Definition after_plus (s : jsstring) : jsstring :=
  match s with
  | c :: rest => if N.eqb c (code "+") then rest else s
  | [] => s
  end.

End Documented.

(* ================================================================= *)
(** * Properties *)

(** ** The matcher agrees with the words of a regular expression *)

Section Matcher.

Lemma app_eq_nil_both (A : Type) (u v : list A) :
  u ++ v = [] -> u = [] /\ v = [].
Proof. destruct u; simpl; intros H; [auto | discriminate]. Qed.

Lemma lang_eps_inv (s : jsstring) : lang Eps s -> s = [].
Proof. intros H; inversion H; reflexivity. Qed.

Lemma lang_cls_inv (p : char -> bool) (s : jsstring) :
  lang (Cls p) s -> exists c, s = [c] /\ p c = true.
Proof. intros H; inversion H; subst; eauto. Qed.

Lemma lang_cat_inv (r1 r2 : re) (s : jsstring) :
  lang (Cat r1 r2) s -> exists u v, s = u ++ v /\ lang r1 u /\ lang r2 v.
Proof. intros H; inversion H; subst; eauto. Qed.

Lemma lang_alt_inv (r1 r2 : re) (s : jsstring) :
  lang (Alt r1 r2) s -> lang r1 s \/ lang r2 s.
Proof. intros H; inversion H; subst; auto. Qed.

Lemma nullable_lang (r : re) : nullable r = true <-> lang r [].
Proof.
  induction r as [| | p | r1 IH1 r2 IH2 | r1 IH1 r2 IH2 | r1 IH1]; simpl.
  - split; [discriminate | intros H; inversion H].
  - split; [constructor | reflexivity].
  - split; [discriminate | intros H; inversion H].
  - rewrite andb_true_iff, IH1, IH2. split.
    + intros [H1 H2]. apply (lang_cat H1 H2).
    + intros H. apply lang_cat_inv in H. destruct H as (u & v & Heq & Hu & Hv).
      symmetry in Heq. destruct (app_eq_nil_both _ _ Heq) as [-> ->]. auto.
  - rewrite orb_true_iff, IH1, IH2. split.
    + intros [H | H]; [apply lang_alt_l | apply lang_alt_r]; exact H.
    + apply lang_alt_inv.
  - split; [constructor | reflexivity].
Qed.

(** A non-empty word of [r*] starts with a non-empty word of [r]. *)
Lemma lang_star_cons (r : re) (c : char) (s : jsstring) :
  lang (Star r) (c :: s) ->
  exists u v, s = u ++ v /\ lang r (c :: u) /\ lang (Star r) v.
Proof.
  intros H. remember (Star r) as r' eqn:Er. remember (c :: s) as w eqn:Ew.
  revert s Ew.
  induction H as [| | | | | | r0 u v Hu _ Hv IHv]; intros s Ew;
    try discriminate.
  injection Er as ->.
  destruct u as [| c' u'].
  - simpl in Ew. apply IHv; [reflexivity | exact Ew].
  - simpl in Ew. injection Ew as -> <-.
    exists u', v. auto.
Qed.

Lemma deriv_lang (r : re) :
  forall c s, lang (deriv c r) s <-> lang r (c :: s).
Proof.
  induction r as [| | p | r1 IH1 r2 IH2 | r1 IH1 r2 IH2 | r1 IH1];
    intros c s; simpl.
  - split; intros H; inversion H.
  - split; intros H; inversion H.
  - destruct (p c) eqn:Hp; split; intros H.
    + apply lang_eps_inv in H. subst s. constructor. exact Hp.
    + apply lang_cls_inv in H. destruct H as (c' & Heq & _).
      injection Heq as _ ->. constructor.
    + inversion H.
    + apply lang_cls_inv in H. destruct H as (c' & Heq & Hc').
      injection Heq as -> _. congruence.
  - assert (Hleft : forall t, lang (Cat (deriv c r1) r2) t ->
                              lang (Cat r1 r2) (c :: t)).
    { intros t H. apply lang_cat_inv in H.
      destruct H as (u & v & -> & Hu & Hv).
      apply IH1 in Hu. apply (lang_cat Hu Hv). }
    assert (Hsplit : lang (Cat r1 r2) (c :: s) ->
                     lang (Cat (deriv c r1) r2) s \/
                     (lang r1 [] /\ lang (deriv c r2) s)).
    { intros H. apply lang_cat_inv in H.
      destruct H as (u & v & Heq & Hu & Hv).
      destruct u as [| c' u']; simpl in Heq.
      - right. subst v. split; [exact Hu | apply IH2; exact Hv].
      - injection Heq as <- ->. left.
        apply lang_cat; [apply IH1; exact Hu | exact Hv]. }
    destruct (nullable r1) eqn:Hn.
    + split.
      * intros H. apply lang_alt_inv in H. destruct H as [H | H].
        -- apply Hleft; assumption.
        -- apply (lang_cat (u := [])).
           ++ apply nullable_lang; exact Hn.
           ++ apply IH2; assumption.
      * intros H. destruct (Hsplit H) as [H' | [_ H']].
        -- apply lang_alt_l; exact H'.
        -- apply lang_alt_r; exact H'.
    + split.
      * apply Hleft.
      * intros H. destruct (Hsplit H) as [H' | [H' _]]; [exact H' |].
        apply nullable_lang in H'. congruence.
  - split; intros H; apply lang_alt_inv in H; destruct H as [H | H].
    + apply lang_alt_l, IH1; assumption.
    + apply lang_alt_r, IH2; assumption.
    + apply lang_alt_l, IH1; assumption.
    + apply lang_alt_r, IH2; assumption.
  - split.
    + intros H. apply lang_cat_inv in H.
      destruct H as (u & v & -> & Hu & Hv).
      apply IH1 in Hu. apply (lang_star_app Hu Hv).
    + intros H. destruct (lang_star_cons H) as (u & v & -> & Hu & Hv).
      apply lang_cat; [apply IH1; exact Hu | exact Hv].
Qed.

Theorem full_match_lang (s : jsstring) :
  forall r, full_match r s = true <-> lang r s.
Proof.
  induction s as [| c s IH]; intros r; simpl.
  - apply nullable_lang.
  - rewrite IH. apply deriv_lang.
Qed.

End Matcher.

(** ** The regular expressions of the screens, read as plain list checks *)

Section Patterns.

Variable p : char -> bool.

Lemma lang_star_cls (s : jsstring) :
  lang (Star (Cls p)) s <-> forallb p s = true.
Proof.
  split.
  - intros H. remember (Star (Cls p)) as r eqn:Er.
    induction H as [| | | | | | r0 u v Hu _ Hv IHv]; try discriminate.
    + reflexivity.
    + injection Er as ->. apply lang_cls_inv in Hu.
      destruct Hu as (c & -> & Hc). simpl. rewrite Hc. simpl.
      apply IHv. reflexivity.
  - induction s as [| c s IH]; simpl; intros H.
    + constructor.
    + apply andb_true_iff in H. destruct H as [Hc Hs].
      apply (lang_star_app (u := [c])); [constructor; exact Hc | auto].
Qed.

Lemma full_match_star_cls (s : jsstring) :
  full_match (Star (Cls p)) s = forallb p s.
Proof.
  apply eq_true_iff_eq. rewrite full_match_lang. apply lang_star_cls.
Qed.

(** [r{n,}] over a class: at least [n] characters, all of the class. *)
Lemma full_match_at_least (n : nat) :
  forall s,
    full_match (at_least n (Cls p)) s
    = Nat.leb n (List.length s) && forallb p s.
Proof.
  induction n as [| n IH]; intros s.
  - simpl at_least. rewrite full_match_star_cls. reflexivity.
  - destruct s as [| c s].
    + reflexivity.
    + simpl at_least. simpl full_match. simpl List.length. simpl forallb.
      destruct (p c); simpl.
      * rewrite <- IH. clear IH.
        (* the derivative is [Cat Eps (at_least n _)] *)
        apply eq_true_iff_eq. rewrite !full_match_lang. split.
        -- intros H. apply lang_cat_inv in H.
           destruct H as (u & v & -> & Hu & Hv).
           apply lang_eps_inv in Hu. subst u. exact Hv.
        -- intros H. apply (lang_cat (u := []) lang_eps H).
      * rewrite andb_false_r.
        apply not_true_is_false. rewrite full_match_lang. intros H.
        apply lang_cat_inv in H. destruct H as (u & v & _ & Hu & _).
        inversion Hu.
Qed.

End Patterns.

Section Search.

Lemma lang_star_any (s : jsstring) : lang (Star any) s.
Proof. apply lang_star_cls. induction s; simpl; auto. Qed.

Lemma existsb_split (p : char -> bool) (s : jsstring) :
  existsb p s = true <->
  exists u c v, s = u ++ c :: v /\ p c = true.
Proof.
  split.
  - induction s as [| a s IH]; simpl; [discriminate |].
    destruct (p a) eqn:Ha; simpl.
    + intros _. exists [], a, s. auto.
    + intros H. destruct (IH H) as (u & c & v & -> & Hc).
      exists (a :: u), c, v. auto.
  - intros (u & c & v & -> & Hc). rewrite existsb_app. simpl.
    rewrite Hc. apply orb_true_r.
Qed.

(** [/[class]/.test(s)]: some character of [s] is in the class. *)
Lemma test_search_cls (p : char -> bool) (s : jsstring) :
  test_search (Cls p) s = existsb p s.
Proof.
  apply eq_true_iff_eq. unfold test_search.
  rewrite full_match_lang, existsb_split. split.
  - intros H. apply lang_cat_inv in H.
    destruct H as (u & w & -> & _ & H).
    apply lang_cat_inv in H. destruct H as (x & v & -> & Hx & _).
    apply lang_cls_inv in Hx. destruct Hx as (c & -> & Hc).
    exists u, c, v. auto.
  - intros (u & c & v & -> & Hc).
    apply lang_cat; [apply lang_star_any |].
    apply (lang_cat (u := [c])); [constructor; exact Hc |].
    apply lang_star_any.
Qed.

(** [(?=.*[class])] at the start of the input: a character of the class
    with no line terminator before it. *)
Lemma lookahead_dot_star_cls (q : char -> bool) (s : jsstring) :
  lookahead (Cat (Star dot) (Cls q)) s = true <->
  exists u c v,
    s = u ++ c :: v /\
    forallb (fun c => negb (line_terminator c)) u = true /\
    q c = true.
Proof.
  unfold lookahead. rewrite full_match_lang. split.
  - intros H. apply lang_cat_inv in H.
    destruct H as (w & v & -> & H & _).
    apply lang_cat_inv in H. destruct H as (u & x & -> & Hu & Hx).
    apply lang_cls_inv in Hx. destruct Hx as (c & -> & Hc).
    apply lang_star_cls in Hu.
    exists u, c, v. rewrite <- app_assoc. auto.
  - intros (u & c & v & -> & Hu & Hc).
    change (u ++ c :: v) with (u ++ [c] ++ v). rewrite app_assoc.
    apply lang_cat; [| apply lang_star_any].
    apply lang_cat; [apply lang_star_cls; exact Hu | constructor; exact Hc].
Qed.

Lemma lookahead_existsb (q : char -> bool) (s : jsstring) :
  lookahead (Cat (Star dot) (Cls q)) s = true -> existsb q s = true.
Proof.
  rewrite lookahead_dot_star_cls, existsb_split.
  intros (u & c & v & Hs & _ & Hc). eauto.
Qed.

Lemma existsb_lookahead (q : char -> bool) (s : jsstring) :
  forallb (fun c => negb (line_terminator c)) s = true ->
  existsb q s = true ->
  lookahead (Cat (Star dot) (Cls q)) s = true.
Proof.
  rewrite lookahead_dot_star_cls, existsb_split.
  intros Hs (u & c & v & -> & Hc).
  rewrite forallb_app in Hs. apply andb_true_iff in Hs.
  exists u, c, v. tauto.
Qed.

End Search.

(** ** Reset-password screen: the regular-expression gate and the scorer *)

Section ResetPasswordProperties.

Import ResetPassword Documented.

Lemma eqb_eq (a : jsstring) : forall b, eqb a b = true <-> a = b.
Proof.
  induction a as [| x a IH]; intros [| y b]; simpl;
    try (split; [discriminate | discriminate]).
  - split; reflexivity.
  - rewrite andb_true_iff, N.eqb_eq, IH. split.
    + intros [-> ->]. reflexivity.
    + intros H. injection H as -> ->. auto.
Qed.

Lemma eqb_refl (a : jsstring) : eqb a a = true.
Proof. apply eqb_eq. reflexivity. Qed.

(** No character of the password class is a line terminator, so [.]
    matches each of them. *)
Lemma password_char_not_line_terminator (c : char) :
  password_char c = true -> negb (line_terminator c) = true.
Proof.
  unfold password_char, upper, lower, digit, special, in_range,
    line_terminator.
  change (code "A") with 65%N. change (code "Z") with 90%N.
  change (code "a") with 97%N. change (code "z") with 122%N.
  change (code "0") with 48%N. change (code "9") with 57%N.
  change (code "@") with 64%N. change (code "$") with 36%N.
  change (code "!") with 33%N. change (code "%") with 37%N.
  change (code "*") with 42%N. change (code "?") with 63%N.
  change (code "&") with 38%N.
  rewrite negb_true_iff, !orb_true_iff, !andb_true_iff, !orb_false_iff,
    !N.leb_le, !N.eqb_eq, !N.eqb_neq.
  lia.
Qed.

Lemma password_chars_no_line_terminator (s : jsstring) :
  forallb password_char s = true ->
  forallb (fun c => negb (line_terminator c)) s = true.
Proof.
  rewrite !forallb_forall. intros H c Hc.
  apply password_char_not_line_terminator, H, Hc.
Qed.

(** The anchored expression with its four lookaheads, as list checks. *)
Lemma passwordRegex_spec (s : jsstring) :
  passwordRegex s
  = existsb lower s && existsb upper s && existsb digit s
    && existsb special s
    && (Nat.leb 8 (List.length s) && forallb password_char s).
Proof.
  unfold passwordRegex, test_anchored. simpl forallb.
  rewrite full_match_at_least, andb_true_r.
  destruct (forallb password_char s) eqn:Hall.
  - assert (Hla : forall q,
               lookahead (Cat (Star dot) (Cls q)) s = existsb q s).
    { intros q. apply eq_true_iff_eq. split.
      - apply lookahead_existsb.
      - apply existsb_lookahead, password_chars_no_line_terminator, Hall. }
    rewrite !Hla, !andb_assoc. reflexivity.
  - rewrite !andb_false_r. reflexivity.
Qed.

Lemma passwordRegex_criteria (s : jsstring) :
  passwordRegex s = true ->
  has_uppercase s = true /\ has_lowercase s = true /\ has_digit s = true
  /\ has_special s = true /\ long_enough s = true.
Proof.
  rewrite passwordRegex_spec, !andb_true_iff.
  unfold has_uppercase, has_lowercase, has_digit, has_special, long_enough.
  tauto.
Qed.

(** The scorer classifies by the number of criteria passed. *)
Lemma checkPasswordStrength_by_count (password : jsstring) :
  checkPasswordStrength password
  = if Nat.leb (criteria_passed password) 2 then weak
    else if Nat.leb (criteria_passed password) 4 then medium
    else strong.
Proof.
  unfold checkPasswordStrength, criteria_passed, has_uppercase,
    has_lowercase, has_digit, has_special, long_enough.
  rewrite !test_search_cls.
  destruct (existsb upper password), (existsb lower password),
    (existsb digit password), (existsb special password),
    (Nat.leb 8 (List.length password)); reflexivity.
Qed.

(** C7.  The reset-password form is accepted only if the password has at
    least 8 characters and contains an uppercase letter, a lowercase
    letter, a digit and a special character (one of [@$!%*?&]); the
    expression accepts "Str0ng!Pass", and the form does once the
    confirmation repeats it; it rejects "weakpass" whatever the
    confirmation. *)
Theorem reset_password_gate :
  (forall formData : FormData,
      fst (validateForm formData) = true ->
      8 <= List.length (password formData)
      /\ has_uppercase (password formData) = true
      /\ has_lowercase (password formData) = true
      /\ has_digit (password formData) = true
      /\ has_special (password formData) = true)
  /\ passwordRegex (js "Str0ng!Pass") = true
  /\ fst (validateForm (mkFormData (js "Str0ng!Pass") (js "Str0ng!Pass")))
     = true
  /\ passwordRegex (js "weakpass") = false
  /\ (forall confirmation : jsstring,
         fst (validateForm (mkFormData (js "weakpass") confirmation))
         = false).
Proof.
  split; [| repeat split; intros; vm_compute; reflexivity].
  intros formData. unfold validateForm.
  destruct (negb (truthy (password formData))
            || Nat.ltb (List.length (password formData)) 8) eqn:Hlen;
    [discriminate |].
  destruct (passwordRegex (password formData)) eqn:Hre;
    [| discriminate].
  intros _. apply passwordRegex_criteria in Hre.
  destruct Hre as (Hu & Hl & Hd & Hs & Hn).
  apply Nat.leb_le in Hn. auto.
Qed.

(** C8.  The scorer counts how many of the five criteria (uppercase,
    lowercase, digit, special character, length at least 8) pass and
    returns weak for at most 2, medium for 3 or 4, strong for 5; "abc"
    is weak and "Abcdef12", which passes 4, is medium. *)
Theorem strength_scorer :
  (forall password : jsstring,
      (criteria_passed password <= 2 ->
       checkPasswordStrength password = weak)
      /\ (criteria_passed password = 3 \/ criteria_passed password = 4 ->
          checkPasswordStrength password = medium)
      /\ (criteria_passed password = 5 ->
          checkPasswordStrength password = strong))
  /\ checkPasswordStrength (js "abc") = weak
  /\ criteria_passed (js "Abcdef12") = 4
  /\ checkPasswordStrength (js "Abcdef12") = medium.
Proof.
  split; [| repeat split; vm_compute; reflexivity].
  intros password. rewrite checkPasswordStrength_by_count.
  repeat split.
  - intros H. apply Nat.leb_le in H. rewrite H. reflexivity.
  - intros [H | H]; rewrite H; reflexivity.
  - intros H. rewrite H. reflexivity.
Qed.

(** C10.  A password the reset-password expression accepts passes all
    five scoring criteria, so the scorer returns strong. *)
Theorem accepted_password_is_strong (password : jsstring) :
  passwordRegex password = true ->
  checkPasswordStrength password = strong.
Proof.
  intros H. apply passwordRegex_criteria in H.
  destruct H as (Hu & Hl & Hd & Hs & Hn).
  rewrite checkPasswordStrength_by_count. unfold criteria_passed.
  rewrite Hu, Hl, Hd, Hs, Hn. reflexivity.
Qed.

End ResetPasswordProperties.

(** ** Registration screen: local validation and OTP confirmation *)

Section RegisterProperties.

Import Register.

(** [isValid] is true exactly when none of the six checks fires. *)
Lemma validateForm_isValid (formData : FormData) (verified : bool) :
  fst (validateForm formData verified)
  = negb
      ((negb (truthy (email formData))
        && negb (truthy (phoneNumber formData)))
       || (truthy (email formData) && negb (emailRegex (email formData)))
       || (truthy (phoneNumber formData)
           && negb (phoneRegex (phoneNumber formData)))
       || Nat.ltb (List.length (password formData)) 8
       || negb (eqb (password formData) (confirmPassword formData))
       || (truthy (email formData) && negb verified)).
Proof.
  unfold validateForm.
  destruct (negb (truthy (email formData))
            && negb (truthy (phoneNumber formData)));
    destruct (truthy (email formData) && negb (emailRegex (email formData)));
    destruct (truthy (phoneNumber formData)
              && negb (phoneRegex (phoneNumber formData)));
    destruct (Nat.ltb (List.length (password formData)) 8);
    destruct (negb (eqb (password formData) (confirmPassword formData)));
    destruct (truthy (email formData) && negb verified);
    reflexivity.
Qed.

Lemma truthy_false (s : jsstring) : truthy s = false <-> s = [].
Proof. destruct s; simpl; split; congruence. Qed.

Lemma truthy_true (s : jsstring) : truthy s = true <-> s <> [].
Proof. destruct s; simpl; split; congruence. Qed.

(** C5.  The local validation of the registration form returns
    [isValid = false] whenever both email and phone number are empty, or
    an email is supplied while the email is not verified, or the password
    has fewer than 8 characters, or the confirmation differs from the
    password. *)
Theorem registration_blocked (formData : FormData) (verified : bool) :
  (email formData = [] /\ phoneNumber formData = [])
  \/ (email formData <> [] /\ verified = false)
  \/ List.length (password formData) < 8
  \/ confirmPassword formData <> password formData ->
  fst (validateForm formData verified) = false.
Proof.
  intros H. rewrite validateForm_isValid. apply negb_false_iff.
  rewrite !orb_true_iff.
  destruct H as [[He Hp] | [[He Hv] | [Hlen | Hneq]]].
  - do 5 left. rewrite He, Hp. reflexivity.
  - right. apply truthy_true in He. rewrite He, Hv. reflexivity.
  - do 2 left. right. apply Nat.ltb_lt. exact Hlen.
  - left. right. apply negb_true_iff, not_true_is_false.
    rewrite eqb_eq. congruence.
Qed.

Variable post_mail_confirm :
  jsstring -> jsstring -> result (option ApiResponse).
Variable st : State.

Let answer := post_mail_confirm (email (formData st)) (join (otp st)).
Let st' := handleVerifyOtp post_mail_confirm st.

(** C6, as the code has it.  When the six OTP digits are entered and the
    confirmation call resolves, the email becomes verified and the OTP
    input closes exactly when the response message is the string
    "Email verified."; for any other resolved response the verification
    state and the OTP input stay as they were and the inline error is the
    response message, or "Invalid OTP" when that message is empty or
    missing.  When the call fails, nothing is verified whatever the
    message of the error response, and the inline error is that message,
    or "Verification failed" when it is empty or missing. *)
Theorem otp_confirmation :
  List.length (join (otp st)) = 6 ->
  (forall data,
      answer = Resolved data ->
      message_of data = Some (js "Email verified.") ->
      isEmailVerified st' = true /\ showOtpModal st' = false
      /\ verificationError st' = [])
  /\ (forall data,
         answer = Resolved data ->
         message_of data <> Some (js "Email verified.") ->
         isEmailVerified st' = isEmailVerified st
         /\ showOtpModal st' = showOtpModal st
         /\ verificationError st'
            = or_default (message_of data) (js "Invalid OTP"))
  /\ (forall data,
         answer = Resolved data ->
         isEmailVerified st = false ->
         (isEmailVerified st' = true
          <-> message_of data = Some (js "Email verified.")))
  /\ (forall m,
         answer = Thrown m ->
         isEmailVerified st' = isEmailVerified st
         /\ showOtpModal st' = showOtpModal st
         /\ verificationError st'
            = or_default m (js "Verification failed")).
Proof.
  intros Hlen. subst st' answer. unfold handleVerifyOtp.
  rewrite Hlen. change (negb (Nat.eqb 6 6)) with false. cbv iota zeta.
  change (email (formData (setVerificationError [] (setIsVerifying true st))))
    with (email (formData st)).
  split; [| split; [| split]].
  - intros data Hans Hm. rewrite Hans. unfold message_is. rewrite Hm.
    rewrite eqb_refl. repeat split.
  - intros data Hans Hm. rewrite Hans. unfold message_is.
    destruct (message_of data) as [m |] eqn:Em; [| repeat split].
    destruct (eqb m (js "Email verified.")) eqn:E; [| repeat split].
    apply eqb_eq in E. subst m. exfalso. apply Hm. reflexivity.
  - intros data Hans Hst. rewrite Hans. unfold message_is.
    destruct (message_of data) as [m |] eqn:Em.
    + destruct (eqb m (js "Email verified.")) eqn:E.
      * apply eqb_eq in E. subst m. split; reflexivity.
      * cbn. rewrite Hst. split; [discriminate |].
        intros Hm. injection Hm as ->. rewrite eqb_refl in E. discriminate.
    + cbn. rewrite Hst. split; discriminate.
  - intros m Hans. rewrite Hans. repeat split.
Qed.

End RegisterProperties.

(** ** Auth slice: reducers, thunks and the token store *)

Section AuthSliceProperties.

Import AuthService AuthSlice.

Local Arguments isTokenExpired : simpl never.

(** Unfolds one dispatch down to the answers of the environment, and
    splits on those. *)
Ltac run_dispatch :=
  cbv [dispatch dispatch_thunk settle checkAuth loginByEmailThunk
         refreshTokenThunk registerCitizen changePassword fetchCurrentUser
         logoutThunk try_catch bind ret throw await get_token set_token
         remove_token getAccessToken setAccessToken removeAccessToken];
  cbn;
  repeat
    (match goal with
     | |- context [isTokenExpired ?n ?t] =>
         destruct (isTokenExpired n t) eqn:?
     | |- context [refreshAccessToken ?e] =>
         destruct (refreshAccessToken e) as [[? [? |]] | ?] eqn:?
     | |- context [loginByEmail ?e ?x ?y] =>
         destruct (loginByEmail e x y) as [[? ?] | ?] eqn:?
     | |- context [get_find_by_email ?e ?x] =>
         destruct (get_find_by_email e x) eqn:?
     | |- context [get_me ?e ?x] => destruct (get_me e x) eqn:?
     | |- context [post_citizens_add ?e] =>
         destruct (post_citizens_add e) eqn:?
     | |- context [put_change_password ?e] =>
         destruct (put_change_password e) eqn:?
     end; cbn).

(** A completed dispatch that leaves [isAuthenticated] set leaves a token
    in the store, provided this held before. *)
Lemma dispatch_keeps_token (env : Env) (q : request) (w : World) :
  (isAuthenticated (auth w) = true -> store w <> None) ->
  isAuthenticated (auth (fst (dispatch env q w))) = true ->
  store (fst (dispatch env q w)) <> None.
Proof.
  destruct w as [[token |] st]; cbn [auth store]; intros Hw;
    destruct q; run_dispatch; intros H; try discriminate; auto.
Qed.

(** No action makes an authenticated state without a user: such a state
    is only ever inherited. *)
Lemma reducer_user (w : World) (a : action) :
  isAuthenticated (auth (reducer w a)) = true ->
  user (auth (reducer w a)) = None ->
  isAuthenticated (auth w) = true /\ user (auth w) = None.
Proof.
  destruct a; cbn [reducer auth isAuthenticated user]; intros H1 H2;
    try discriminate; auto.
Qed.

(** Unfolds a creator in both styles down to the answers of the
    environment, and splits on those. *)
Ltac run_steps :=
  cbv [checkAuth_steps loginByEmailThunk_steps refreshTokenThunk_steps
         registerCitizen_steps changePassword_steps fetchCurrentUser_steps
         logoutThunk_steps pawait read_token write_token drop_token
         checkAuth loginByEmailThunk refreshTokenThunk registerCitizen
         changePassword fetchCurrentUser logoutThunk try_catch bind ret
         throw await get_token set_token remove_token getAccessToken
         setAccessToken removeAccessToken];
  cbn;
  repeat
    (match goal with
     | |- context [isTokenExpired ?n ?t] =>
         destruct (isTokenExpired n t) eqn:?
     | |- context [refreshAccessToken ?e] =>
         destruct (refreshAccessToken e) as [[? [? |]] | ?] eqn:?
     | |- context [loginByEmail ?e ?x ?y] =>
         destruct (loginByEmail e x y) as [[? ?] | ?] eqn:?
     | |- context [get_find_by_email ?e ?x] =>
         destruct (get_find_by_email e x) eqn:?
     | |- context [get_me ?e ?x] => destruct (get_me e x) eqn:?
     | |- context [post_citizens_add ?e] =>
         destruct (post_citizens_add e) eqn:?
     | |- context [put_change_password ?e] =>
         destruct (put_change_password e) eqn:?
     end; cbn).

(** Run without interruption, the suspending creators are the creators
    of the atomic model. *)
Lemma checkAuth_steps_run (env : Env) (ts : TokenStore) :
  run (checkAuth_steps env) ts = checkAuth env ts.
Proof. destruct ts; run_steps; reflexivity. Qed.

Lemma loginByEmailThunk_steps_run (env : Env)
    (credentials : LoginByEmailPayload) (ts : TokenStore) :
  run (loginByEmailThunk_steps env credentials) ts
  = loginByEmailThunk env credentials ts.
Proof. destruct ts; run_steps; reflexivity. Qed.

Lemma refreshTokenThunk_steps_run (env : Env) (ts : TokenStore) :
  run (refreshTokenThunk_steps env) ts = refreshTokenThunk env ts.
Proof. destruct ts; run_steps; reflexivity. Qed.

Lemma registerCitizen_steps_run (env : Env) (ts : TokenStore) :
  run (registerCitizen_steps env) ts = registerCitizen env ts.
Proof. destruct ts; run_steps; reflexivity. Qed.

Lemma changePassword_steps_run (env : Env) (ts : TokenStore) :
  run (changePassword_steps env) ts = changePassword env ts.
Proof. destruct ts; run_steps; reflexivity. Qed.

Lemma fetchCurrentUser_steps_run (env : Env) (ts : TokenStore) :
  run (fetchCurrentUser_steps env) ts = fetchCurrentUser env ts.
Proof. destruct ts; run_steps; reflexivity. Qed.

Lemma logoutThunk_steps_run (ts : TokenStore) :
  run logoutThunk_steps ts = logoutThunk ts.
Proof. destruct ts; run_steps; reflexivity. Qed.

Lemma launch_unfold {P : Type} (pending : action) (fulfilled : P -> action)
    (rejected : option jsstring -> action) (steps : prog (outcome P))
    (s : System) :
  launch pending fulfilled rejected steps s
  = mkSystem
      (mkWorld (snd (advance steps (store (reducer (world s) pending))))
         (auth (reducer (world s) pending)))
      (mkJob fulfilled rejected
         (fst (advance steps (store (reducer (world s) pending))))
       :: inflight s).
Proof.
  unfold launch.
  destruct (advance steps (store (reducer (world s) pending))); reflexivity.
Qed.

(** An event changes the auth state by one action of the slice, or not
    at all. *)
Lemma react_auth (e : event) (s : System) :
  auth (world (react e s)) = auth (world s)
  \/ exists a : action,
       auth (world (react e s)) = auth (reducer (world s) a).
Proof.
  destruct e as [env q | i].
  - right. destruct q; cbn [react]; rewrite ?launch_unfold;
      cbn [world auth]; eexists; reflexivity.
  - cbn [react]. destruct (nth_error (inflight s) i) as [[P f r [res | p]] |].
    + right. eexists. reflexivity.
    + left. destruct (advance p (store (world s))). reflexivity.
    + left. reflexivity.
Qed.

(** However the thunks overlap, an authenticated state without a user
    goes back to a token stored at initialization. *)
Lemma reachable_user (ts0 : TokenStore) (s : System) :
  reachable_from ts0 s ->
  isAuthenticated (auth (world s)) = true ->
  user (auth (world s)) = None ->
  ts0 <> None.
Proof.
  induction 1 as [| e s Hs IH].
  - destruct ts0; cbn; [discriminate | discriminate].
  - destruct (react_auth e s) as [Heq | [a Heq]]; rewrite Heq.
    + exact IH.
    + intros H1 H2. destruct (reducer_user _ _ H1 H2) as [H3 H4]. auto.
Qed.

(** Running a creator for one turn and then to its end is running it
    without interruption. *)
Lemma advance_run {A : Type} (p : prog A) :
  forall ts : TokenStore,
    match fst (advance p ts) with
    | Finished r => run p ts = (r, snd (advance p ts))
    | Waiting p' => run p ts = run p' (snd (advance p ts))
    end.
Proof.
  induction p as [a | e | f IH | t p IH | p IH | p IH]; intros ts;
    cbn [advance run fst snd].
  - reflexivity.
  - reflexivity.
  - exact (IH _ ts).
  - exact (IH _).
  - exact (IH _).
  - reflexivity.
Qed.

(** A thunk that is resumed until it has settled, nothing else happening
    meanwhile, ends where the run without interruption ends. *)
Lemma resume_to_the_end (ts0 : TokenStore) {P : Type}
    (fulfilled : P -> action) (rejected : option jsstring -> action)
    (jobs : list job) (au : AuthState) (p : prog (outcome P)) :
  forall ts : TokenStore,
    reachable_in_turn ts0
      (mkSystem (mkWorld (snd (advance p ts)) au)
         (mkJob fulfilled rejected (fst (advance p ts)) :: jobs)) ->
    reachable_in_turn ts0
      (mkSystem
         (reducer (mkWorld (snd (run p ts)) au)
            (settle fulfilled rejected (fst (run p ts))))
         jobs).
Proof.
  induction p as [a | e | f IH | t p IH | p IH | p IH]; intros ts H.
  - exact (in_turn_resume 0 H).
  - exact (in_turn_resume 0 H).
  - exact (IH _ ts H).
  - exact (IH _ H).
  - exact (IH _ H).
  - apply (IH ts).
    apply (in_turn_resume 0) in H.
    cbn in H. destruct (advance p ts). exact H.
Qed.

(** A dispatch of the atomic model is the run in which the thunk is
    resumed at once until it has settled. *)
Lemma launch_completes (ts0 : TokenStore) {P : Type} (pending : action)
    (fulfilled : P -> action) (rejected : option jsstring -> action)
    (steps : prog (outcome P)) (creator : M (outcome P)) (s : System) :
  (forall ts, run steps ts = creator ts) ->
  reachable_in_turn ts0 (launch pending fulfilled rejected steps s) ->
  reachable_in_turn ts0
    (mkSystem
       (fst (dispatch_thunk pending fulfilled rejected creator (world s)))
       (inflight s)).
Proof.
  intros Hrun H. rewrite launch_unfold in H.
  apply resume_to_the_end in H. rewrite Hrun in H.
  unfold dispatch_thunk.
  destruct (creator (store (reducer (world s) pending))). exact H.
Qed.

Lemma dispatch_in_turn (ts0 : TokenStore) (env : Env) (q : request)
    (s : System) :
  reachable_in_turn ts0 s -> inflight s = [] ->
  reachable_in_turn ts0 (mkSystem (fst (dispatch env q (world s))) []).
Proof.
  intros Hs Hjobs.
  pose proof (in_turn_dispatch env q Hs Hjobs) as H.
  destruct s as [w jobs]. cbn [inflight world] in *. subst jobs.
  destruct q; cbn [react world inflight] in H; cbn [dispatch fst];
    try exact H.
  - exact (@launch_completes ts0 _ _ _ _ _ _ (mkSystem w [])
             (checkAuth_steps_run env) H).
  - exact (@launch_completes ts0 _ _ _ _ _ _ (mkSystem w [])
             (loginByEmailThunk_steps_run env credentials) H).
  - exact (@launch_completes ts0 _ _ _ _ _ _ (mkSystem w [])
             (refreshTokenThunk_steps_run env) H).
  - exact (@launch_completes ts0 _ _ _ _ _ _ (mkSystem w [])
             (registerCitizen_steps_run env) H).
  - exact (@launch_completes ts0 _ _ _ _ _ _ (mkSystem w [])
             (changePassword_steps_run env) H).
  - exact (@launch_completes ts0 _ _ _ _ _ _ (mkSystem w [])
             (fetchCurrentUser_steps_run env) H).
  - exact (@launch_completes ts0 _ _ _ _ _ _ (mkSystem w [])
             logoutThunk_steps_run H).
Qed.

Lemma in_turn_reachable (ts0 : TokenStore) (s : System) :
  reachable_in_turn ts0 s -> reachable_from ts0 s.
Proof.
  induction 1; [apply reachable_start | |]; apply reachable_react;
    assumption.
Qed.

Lemma advance_invariant {P : Type} (fulfilled : P -> action)
    (rejected : option jsstring -> action) (p : prog (outcome P))
    (ts : TokenStore) (au : AuthState) :
  has_token
    (reducer (mkWorld (snd (run p ts)) au)
       (settle fulfilled rejected (fst (run p ts)))) ->
  in_turn_invariant
    (mkSystem (mkWorld (snd (advance p ts)) au)
       [mkJob fulfilled rejected (fst (advance p ts))]).
Proof.
  intros H. unfold in_turn_invariant. cbn [inflight world store auth].
  pose proof (advance_run p ts) as Hrun.
  destruct (fst (advance p ts)) as [r | p'].
  - rewrite Hrun in H. exact H.
  - rewrite Hrun in H. exact H.
Qed.

Lemma launch_invariant {P : Type} (pending : action)
    (fulfilled : P -> action) (rejected : option jsstring -> action)
    (steps : prog (outcome P)) (creator : M (outcome P)) (w : World) :
  (forall ts, run steps ts = creator ts) ->
  has_token (fst (dispatch_thunk pending fulfilled rejected creator w)) ->
  in_turn_invariant
    (launch pending fulfilled rejected steps (mkSystem w [])).
Proof.
  intros Hrun H. rewrite launch_unfold. cbn [world inflight].
  apply advance_invariant. rewrite Hrun.
  unfold dispatch_thunk in H.
  destruct (creator (store (reducer w pending))). exact H.
Qed.

Lemma in_turn_keeps_invariant (ts0 : TokenStore) (s : System) :
  reachable_in_turn ts0 s -> in_turn_invariant s.
Proof.
  induction 1 as [| env q s Hs IH Hjobs | i s Hs IH].
  - unfold in_turn_invariant, has_token.
    destruct ts0; cbn; [discriminate | discriminate].
  - destruct s as [w jobs]. cbn [inflight] in Hjobs. subst jobs.
    unfold in_turn_invariant in IH. cbn [inflight world] in IH.
    pose proof (@dispatch_keeps_token env q w IH) as H.
    destruct q; cbn [react world inflight]; cbn [dispatch] in H.
    + exact H.
    + exact H.
    + exact (@launch_invariant _ _ _ _ _ _ w
               (checkAuth_steps_run env) H).
    + exact (@launch_invariant _ _ _ _ _ _ w
               (loginByEmailThunk_steps_run env credentials) H).
    + exact (@launch_invariant _ _ _ _ _ _ w
               (refreshTokenThunk_steps_run env) H).
    + exact (@launch_invariant _ _ _ _ _ _ w
               (registerCitizen_steps_run env) H).
    + exact (@launch_invariant _ _ _ _ _ _ w
               (changePassword_steps_run env) H).
    + exact (@launch_invariant _ _ _ _ _ _ w
               (fetchCurrentUser_steps_run env) H).
    + exact (@launch_invariant _ _ _ _ _ _ w
               logoutThunk_steps_run H).
  - destruct s as [w [| [P f r state] [| j' rest]]];
      unfold in_turn_invariant in IH; cbn [inflight world] in IH.
    + destruct i; exact IH.
    + destruct i as [| i].
      * destruct state as [res | p]; cbn [react inflight world nth_error].
        -- exact IH.
        -- pose proof (advance_invariant f r p (store w) (auth w) IH)
             as H.
           destruct (advance p (store w)). exact H.
      * destruct i; exact IH.
    + destruct state; destruct IH.
Qed.

(** C1, as the code has it.  The initial state has [isAuthenticated]
    set exactly when a token is stored, whatever its expiry, with [user]
    absent and no request in flight.  In every state the slice reaches,
    thunks overlapping at will, an authenticated state without a user
    occurs only if a token was stored at initialization: every action
    that sets [isAuthenticated] sets [user] too.  When dispatches do not
    overlap, [isAuthenticated = true] implies that a token is present in
    the token store (nothing is said of its expiry) whenever no thunk is
    in flight; the results of the atomic dispatches are such states.
    Neither restriction can be dropped: a logout that falls between the
    two ends of a check-auth leaves an authenticated state and an empty
    token store with nothing in flight, and without overlap a check-auth
    whose refresh has failed has emptied the store before its rejection
    is reduced. *)
Theorem authenticated_state_has_token :
  (forall ts : TokenStore,
      auth (init ts)
      = mkAuthState (match ts with Some _ => true | None => false end)
          None false None)
  /\ (forall (ts0 : TokenStore) (s : System),
         reachable_from ts0 s ->
         isAuthenticated (auth (world s)) = true ->
         user (auth (world s)) = None ->
         ts0 <> None)
  /\ (forall (w : World) (a : action),
         isAuthenticated (auth (reducer w a)) = true ->
         user (auth (reducer w a)) = None ->
         isAuthenticated (auth w) = true /\ user (auth w) = None)
  /\ (forall (ts0 : TokenStore) (s : System),
         reachable_in_turn ts0 s ->
         inflight s = [] ->
         isAuthenticated (auth (world s)) = true ->
         store (world s) <> None)
  /\ (forall (ts0 : TokenStore) (s : System),
         reachable_in_turn ts0 s -> reachable_from ts0 s)
  /\ (forall (ts0 : TokenStore) (env : Env) (q : request) (s : System),
         reachable_in_turn ts0 s ->
         inflight s = [] ->
         reachable_in_turn ts0
           (mkSystem (fst (dispatch env q (world s))) []))
  /\ (exists (ts0 : TokenStore) (s : System),
         reachable_from ts0 s
         /\ inflight s = []
         /\ isAuthenticated (auth (world s)) = true
         /\ store (world s) = None)
  /\ (exists (ts0 : TokenStore) (s : System),
         reachable_in_turn ts0 s
         /\ isAuthenticated (auth (world s)) = true
         /\ store (world s) = None).
Proof.
  split; [intros ts; reflexivity |].
  split; [exact reachable_user |].
  split; [exact reducer_user |].
  split.
  { intros ts0 s Hs Hjobs.
    pose proof (in_turn_keeps_invariant Hs) as H.
    unfold in_turn_invariant in H. rewrite Hjobs in H. exact H. }
  split; [exact in_turn_reachable |].
  split; [exact dispatch_in_turn |].
  split.
  - exists (Some Samples.new_token).
    exists (play Samples.logout_during_checkAuth
              (mkSystem (init (Some Samples.new_token)) [])).
    split; [| repeat split].
    repeat apply reachable_react. apply reachable_start.
  - exists (Some Samples.old_token).
    exists (play Samples.refresh_fails_during_checkAuth
              (mkSystem (init (Some Samples.old_token)) [])).
    split; [| repeat split].
    apply (in_turn_resume 0).
    apply (@in_turn_dispatch _ Samples.offline do_checkAuth
             (mkSystem (init (Some Samples.old_token)) [])).
    + apply in_turn_start.
    + reflexivity.
Qed.

(** C2, evaluated on the code.  Dispatching [logoutThunk] always settles
    as fulfilled and clears the auth state, but it leaves the token store
    exactly as it was: starting signed in, the token is still stored
    afterwards. *)
Theorem logoutThunk_keeps_token (env : Env) :
  (forall w : World,
      snd (dispatch env do_logoutThunk w) = logoutThunk_fulfilled
      /\ auth (fst (dispatch env do_logoutThunk w))
         = mkAuthState false None false None
      /\ store (fst (dispatch env do_logoutThunk w)) = store w)
  /\ store (fst (dispatch env do_logoutThunk Samples.signed_in))
     = Some Samples.new_token.
Proof.
  split; [intros [ts st] | ]; repeat split.
Qed.

(** The plain [logout] action, for comparison: its reducer empties the
    token store and clears [isAuthenticated], [user] and [error]. *)
Lemma logout_reducer_clears (w : World) :
  reducer w logout
  = mkWorld None (mkAuthState false None (loading (auth w)) None).
Proof. reflexivity. Qed.

(** When the refresh call of [checkAuth] throws for an expired token,
    the token store and the auth state are cleared. *)
Lemma checkAuth_refresh_thrown (env : Env) (w : World) (token : Token)
    (m : option jsstring) :
  store w = Some token ->
  isTokenExpired (now env) token = true ->
  refreshAccessToken env = Thrown m ->
  fst (dispatch env do_checkAuth w)
  = mkWorld None (mkAuthState false None false (Some [])).
Proof.
  destruct w as [ts st]. cbn [store]. intros -> Hexp Href.
  run_dispatch; try congruence; reflexivity.
Qed.

(** When the refresh call resolves without a token, [checkAuth] goes on
    to the branch written for a valid token, with the expired one. *)
Lemma checkAuth_refresh_no_token (env : Env) (w : World) (token : Token)
    (message : jsstring) (profile : User) :
  store w = Some token ->
  isTokenExpired (now env) token = true ->
  refreshAccessToken env = Resolved (mkTokenResponse message None) ->
  get_find_by_email env (sub token) = Resolved profile ->
  fst (dispatch env do_checkAuth w)
  = mkWorld (Some token) (mkAuthState true (Some profile) false None).
Proof.
  destruct w as [ts st]. cbn [store]. intros -> Hexp Href Hprofile.
  run_dispatch; try congruence; reflexivity.
Qed.

(** C3, evaluated on the code.  The stored token is expired and the
    refresh call resolves without a new token; the profile lookup answers.
    [checkAuth] then settles as fulfilled: [isAuthenticated] is true, the
    user is set and the expired token is still in the token store. *)
Theorem checkAuth_expired_token_survives :
  isTokenExpired (now Samples.refresh_without_token) Samples.old_token
  = true
  /\ refreshAccessToken Samples.refresh_without_token
     = Resolved (mkTokenResponse (js "No refresh token") None)
  /\ fst (dispatch Samples.refresh_without_token do_checkAuth
            (init (Some Samples.old_token)))
     = mkWorld (Some Samples.old_token)
         (mkAuthState true (Some Samples.alice) false None).
Proof.
  repeat split.
Qed.

(** C4, as the code has it.  For check-auth, login, refresh and logout
    the pending action sets [loading = true] and [error = null], and every
    settled action, like every completed dispatch, leaves
    [loading = false].  A rejection of check-auth, login or refresh sets
    [error] to its payload and resets [isAuthenticated = false] and
    [user = null]; a rejection of logout sets [error] and leaves
    [isAuthenticated] and [user] as they were.  The slice has no case for
    the actions of [registerCitizen]: pending, fulfilled and rejected leave
    the whole state, [isAuthenticated] included, unchanged. *)
Theorem async_transitions (env : Env) (w : World) (value : AuthPayload)
    (payload : option jsstring) (credentials : LoginByEmailPayload)
    (response : jsstring) :
  Forall
    (fun a =>
       loading (auth (reducer w a)) = true
       /\ error (auth (reducer w a)) = None)
    [checkAuth_pending; loginByEmailThunk_pending;
     refreshTokenThunk_pending; logoutThunk_pending]
  /\ Forall
       (fun a => loading (auth (reducer w a)) = false)
       [checkAuth_fulfilled value; checkAuth_rejected payload;
        loginByEmailThunk_fulfilled value;
        loginByEmailThunk_rejected payload;
        refreshTokenThunk_fulfilled value;
        refreshTokenThunk_rejected payload;
        logoutThunk_fulfilled; logoutThunk_rejected payload]
  /\ Forall
       (fun q => loading (auth (fst (dispatch env q w))) = false)
       [do_checkAuth; do_loginByEmail credentials; do_refreshToken;
        do_logoutThunk]
  /\ Forall
       (fun a =>
          auth (reducer w a) = mkAuthState false None false payload)
       [checkAuth_rejected payload; loginByEmailThunk_rejected payload;
        refreshTokenThunk_rejected payload]
  /\ auth (reducer w (logoutThunk_rejected payload))
     = mkAuthState (isAuthenticated (auth w)) (user (auth w)) false payload
  /\ Forall
       (fun a => reducer w a = w)
       [registerCitizen_pending; registerCitizen_fulfilled response;
        registerCitizen_rejected payload]
  /\ fst (dispatch env do_registerCitizen w) = w.
Proof.
  repeat match goal with |- _ /\ _ => split end;
    repeat constructor.
  - destruct w as [[token |] st]; run_dispatch; reflexivity.
  - destruct w as [[token |] st]; run_dispatch; reflexivity.
  - destruct w as [[token |] st]; run_dispatch; reflexivity.
  - destruct w as [[token |] st]; run_dispatch; reflexivity.
Qed.

(** ** The thunks, one by one *)

(** What a login dispatch does, by the answers of the server. *)
Lemma login_dispatch_cases (env : Env) (credentials : LoginByEmailPayload)
    (w : World) :
  dispatch env (do_loginByEmail credentials) w
  = match loginByEmail env (credentials_email credentials)
            (credentials_password credentials) with
    | Resolved response =>
        match get_find_by_email env (credentials_email credentials) with
        | Resolved profile =>
            (mkWorld (Some (accessToken response))
               (mkAuthState true (Some profile) false None),
             loginByEmailThunk_fulfilled
               (mkAuthPayload (accessToken response) profile))
        | Thrown m =>
            (mkWorld None
               (mkAuthState false None false
                  (Some (or_default m (js "Invalid credentials")))),
             loginByEmailThunk_rejected
               (Some (or_default m (js "Invalid credentials"))))
        end
    | Thrown m =>
        (mkWorld None
           (mkAuthState false None false
              (Some (or_default m (js "Invalid credentials")))),
         loginByEmailThunk_rejected
           (Some (or_default m (js "Invalid credentials"))))
    end.
Proof.
  destruct w as [ts st]. destruct credentials as [e p].
  run_dispatch; reflexivity.
Qed.

(** X18.  A login attempt ends in one of two ways.  Either the login and
    the profile lookup both answered: the server's token is stored, the
    profile is the user and [isAuthenticated] is true.  Or one of them
    failed: the token store is empty, even if a token was stored before,
    the user is absent and the error is the message of the failed call, or
    "Invalid credentials" when it has none.  So after a login attempt
    [isAuthenticated] is true exactly when a token is stored. *)
Theorem login_outcome (env : Env) (credentials : LoginByEmailPayload)
    (w : World) :
  let w' := fst (dispatch env (do_loginByEmail credentials) w) in
  ((exists response profile,
       loginByEmail env (credentials_email credentials)
         (credentials_password credentials) = Resolved response
       /\ get_find_by_email env (credentials_email credentials)
          = Resolved profile
       /\ w' = mkWorld (Some (accessToken response))
                 (mkAuthState true (Some profile) false None))
   \/ (exists m,
          (loginByEmail env (credentials_email credentials)
             (credentials_password credentials) = Thrown m
           \/ get_find_by_email env (credentials_email credentials)
              = Thrown m)
          /\ w' = mkWorld None
                    (mkAuthState false None false
                       (Some (or_default m (js "Invalid credentials"))))))
  /\ (isAuthenticated (auth w') = true <-> store w' <> None).
Proof.
  intros w'. subst w'. rewrite login_dispatch_cases.
  destruct (loginByEmail env (credentials_email credentials)
              (credentials_password credentials)) as [response | m].
  - destruct (get_find_by_email env (credentials_email credentials))
      as [profile | m]; cbn [fst].
    + split; [left; eauto |]. cbn. split; [discriminate | reflexivity].
    + split; [right; eauto |]. cbn. split; [discriminate | congruence].
  - cbn [fst]. split; [right; eauto |].
    cbn. split; [discriminate | congruence].
Qed.

(** What a check-auth dispatch does, by the stored token and the answers
    of the server. *)
Lemma checkAuth_dispatch_cases (env : Env) (w : World) :
  fst (dispatch env do_checkAuth w)
  = let signed_out message :=
      mkWorld None (mkAuthState false None false (Some message)) in
    let signed_in token profile :=
      mkWorld (Some token) (mkAuthState true (Some profile) false None) in
    let lookup token :=
      match get_find_by_email env (sub token) with
      | Resolved profile => signed_in token profile
      | Thrown _ => signed_out []
      end in
    match store w with
    | None => signed_out (js "No authentication token found")
    | Some token =>
        if isTokenExpired (now env) token
        then
          match refreshAccessToken env with
          | Resolved response =>
              match data response with
              | Some new_token => lookup new_token
              | None => lookup token
              end
          | Thrown _ => signed_out []
          end
        else lookup token
    end.
Proof.
  destruct w as [[token |] st]; cbn [store]; cbv zeta;
    run_dispatch; reflexivity.
Qed.

(** X19.  After a check-auth dispatch [isAuthenticated] is true exactly
    when a token is stored, and [loading] is false.  Without a stored
    token the error is "No authentication token found"; with one, every
    failure leaves the empty string as error: the message of the server
    never reaches the state. *)
Theorem checkAuth_outcome (env : Env) (w : World) :
  let w' := fst (dispatch env do_checkAuth w) in
  (isAuthenticated (auth w') = true <-> store w' <> None)
  /\ loading (auth w') = false
  /\ (store w = None ->
      w' = mkWorld None
             (mkAuthState false None false
                (Some (js "No authentication token found"))))
  /\ (store w <> None -> isAuthenticated (auth w') = false ->
      w' = mkWorld None (mkAuthState false None false (Some []))).
Proof.
  intros w'. subst w'. rewrite checkAuth_dispatch_cases. cbv zeta.
  destruct (store w) as [token |].
  - assert (Hlookup : forall t,
               let r := match get_find_by_email env (sub t) with
                        | Resolved profile =>
                            mkWorld (Some t)
                              (mkAuthState true (Some profile) false None)
                        | Thrown _ =>
                            mkWorld None
                              (mkAuthState false None false (Some []))
                        end in
               (isAuthenticated (auth r) = true <-> store r <> None)
               /\ loading (auth r) = false
               /\ (isAuthenticated (auth r) = false ->
                   r = mkWorld None (mkAuthState false None false (Some [])))).
    { intros t. destruct (get_find_by_email env (sub t)); cbn.
      - repeat split; try discriminate.
      - repeat split; try discriminate; congruence. }
    assert (Hout : let r := mkWorld None
                              (mkAuthState false None false (Some [])) in
                   (isAuthenticated (auth r) = true <-> store r <> None)
                   /\ loading (auth r) = false
                   /\ (isAuthenticated (auth r) = false ->
                       r = mkWorld None
                             (mkAuthState false None false (Some [])))).
    { cbn. repeat split; try discriminate; congruence. }
    cbv zeta in Hlookup, Hout.
    destruct (isTokenExpired (now env) token).
    + destruct (refreshAccessToken env) as [[msg [t |]] | m]; cbn [data].
      * destruct (Hlookup t) as (H1 & H2 & H3).
        repeat split; try apply H1; auto; discriminate.
      * destruct (Hlookup token) as (H1 & H2 & H3).
        repeat split; try apply H1; auto; discriminate.
      * destruct Hout as (H1 & H2 & H3).
        repeat split; try apply H1; auto; discriminate.
    + destruct (Hlookup token) as (H1 & H2 & H3).
      repeat split; try apply H1; auto; discriminate.
  - cbn. repeat split; try discriminate; congruence.
Qed.

(** X20.  With a stored token that has not expired, check-auth sends no
    refresh request: the result depends on the profile lookup alone.  When
    the lookup answers, the same token stays stored and the profile is the
    user; when it fails, for whatever reason, the still valid token is
    removed and the user is signed out. *)
Theorem checkAuth_valid_token (env : Env) (w : World) (token : Token) :
  store w = Some token ->
  isTokenExpired (now env) token = false ->
  fst (dispatch env do_checkAuth w)
  = match get_find_by_email env (sub token) with
    | Resolved profile =>
        mkWorld (Some token) (mkAuthState true (Some profile) false None)
    | Thrown _ => mkWorld None (mkAuthState false None false (Some []))
    end.
Proof.
  intros Hs He. rewrite checkAuth_dispatch_cases. cbv zeta.
  rewrite Hs, He. reflexivity.
Qed.

(** What a refresh dispatch does, by the answers of the server. *)
Lemma refresh_dispatch_cases (env : Env) (w : World) :
  fst (dispatch env do_refreshToken w)
  = match refreshAccessToken env with
    | Resolved response =>
        match data response with
        | Some new_token =>
            match get_me env new_token with
            | Resolved profile =>
                mkWorld (Some new_token)
                  (mkAuthState true
                     (Some
                        (mkUser (id profile) (fullName profile)
                           (email profile) (phoneNumber profile)
                           (or_default (Some (languagePreference profile))
                              (js "en"))
                           (or_default (Some (location profile)) [])))
                     false None)
            | Thrown m =>
                mkWorld (Some new_token)
                  (mkAuthState false None false
                     (Some (or_default m (js "Token refresh failed"))))
            end
        | None =>
            mkWorld (store w)
              (mkAuthState false None false
                 (Some (js "Token refresh failed")))
        end
    | Thrown m =>
        mkWorld (store w)
          (mkAuthState false None false
             (Some (or_default m (js "Token refresh failed"))))
    end.
Proof.
  destruct w as [ts st]; cbn [store]. run_dispatch; reflexivity.
Qed.

(** X21.  A refresh dispatch never empties the token store: afterwards it
    holds the token it held before, or the new token of the answer.  A
    failed refresh clears [isAuthenticated] and the user and sets an error,
    but leaves the old token where it was; and when the refresh answered
    but the profile request failed, the new token is stored although
    [isAuthenticated] is false. *)
Theorem refresh_keeps_a_token (env : Env) (w : World) :
  let w' := fst (dispatch env do_refreshToken w) in
  (store w' = store w
   \/ exists response new_token,
        refreshAccessToken env = Resolved response
        /\ data response = Some new_token
        /\ store w' = Some new_token)
  /\ (store w <> None -> store w' <> None)
  /\ (forall m,
         refreshAccessToken env = Thrown m ->
         w' = mkWorld (store w)
                (mkAuthState false None false
                   (Some (or_default m (js "Token refresh failed")))))
  /\ (forall response new_token m,
         refreshAccessToken env = Resolved response ->
         data response = Some new_token ->
         get_me env new_token = Thrown m ->
         store w' = Some new_token
         /\ isAuthenticated (auth w') = false).
Proof.
  intros w'. subst w'. rewrite refresh_dispatch_cases.
  destruct (refreshAccessToken env) as [response | m] eqn:Er.
  - destruct (data response) as [t |] eqn:Ed.
    + destruct (get_me env t) as [profile | m] eqn:Em; cbn [store];
        (split; [right; eauto |]);
        (split; [discriminate |]);
        (split; [discriminate |]);
        intros r t' m' Hr Hd Hm; injection Hr as <-;
        rewrite Ed in Hd; injection Hd as <-; try congruence.
      cbn. auto.
    + cbn [store]. split; [left; reflexivity |]. split; [auto |].
      split; [discriminate |].
      intros r t' m' Hr Hd Hm. injection Hr as <-. congruence.
  - cbn [store]. split; [left; reflexivity |]. split; [auto |].
    split; [intros m' Hm; injection Hm as <-; reflexivity |].
    intros r t' m' Hr. discriminate.
Qed.

(** X22.  After a fulfilled refresh the user always has a language
    preference: the one of the profile, or "en" when the profile has
    none; the other fields are those of the profile. *)
Theorem refresh_language_default (env : Env) (w : World) :
  let w' := fst (dispatch env do_refreshToken w) in
  isAuthenticated (auth w') = true ->
  exists response new_token profile,
    refreshAccessToken env = Resolved response
    /\ data response = Some new_token
    /\ get_me env new_token = Resolved profile
    /\ user (auth w')
       = Some (mkUser (id profile) (fullName profile) (email profile)
                 (phoneNumber profile)
                 (if truthy (languagePreference profile)
                  then languagePreference profile else js "en")
                 (location profile))
    /\ (forall u, user (auth w') = Some u -> languagePreference u <> []).
Proof.
  intros w'. subst w'. rewrite refresh_dispatch_cases.
  destruct (refreshAccessToken env) as [response | m] eqn:Er;
    [| discriminate].
  destruct (data response) as [t |] eqn:Ed; [| discriminate].
  destruct (get_me env t) as [profile | m] eqn:Em; [| discriminate].
  intros _. exists response, t, profile.
  split; [reflexivity | split; [exact Ed | split; [exact Em |]]].
  cbn [auth user or_default]. split.
  - f_equal. f_equal. destruct (location profile); reflexivity.
  - intros u Hu. injection Hu as <-. cbn [languagePreference].
    destruct (languagePreference profile) as [| c r]; cbn; discriminate.
Qed.

(** X23.  Fetching the current user never writes the token store.
    Without a stored token no request is sent: the dispatch is rejected
    with "Failed to fetch user data" and signs out.  With one, an answered
    lookup sets the user and leaves [isAuthenticated] as it was, and a
    failed lookup signs out while the token stays stored. *)
Theorem fetchCurrentUser_outcome (env : Env) (w : World) :
  let w' := fst (dispatch env do_fetchCurrentUser w) in
  store w' = store w
  /\ (store w = None ->
      auth w' = mkAuthState false None false
                  (Some (js "Failed to fetch user data")))
  /\ (forall token profile,
         store w = Some token ->
         get_find_by_email env (sub token) = Resolved profile ->
         auth w' = mkAuthState (isAuthenticated (auth w)) (Some profile)
                     false None)
  /\ (forall token m,
         store w = Some token ->
         get_find_by_email env (sub token) = Thrown m ->
         auth w' = mkAuthState false None false
                     (Some (or_default m (js "Failed to fetch user data")))).
Proof.
  intros w'. subst w'. destruct w as [[token |] st]; cbn [store auth].
  - run_dispatch; repeat split; try discriminate;
      intros t x Ht Hx; injection Ht as <-; congruence.
  - run_dispatch; repeat split; discriminate.
Qed.

(** X24.  Changing the password, like registering, never touches the auth
    state nor the token store, whatever the server answers; the settled
    action carries the answer, or the message of the failure with
    "Password change failed" (for a registration, "Registration failed")
    when it has none. *)
Theorem changePassword_does_not_touch_state (env : Env) (w : World) :
  fst (dispatch env do_changePassword w) = w
  /\ snd (dispatch env do_changePassword w)
     = match put_change_password env with
       | Resolved response => changePassword_fulfilled response
       | Thrown m =>
           changePassword_rejected
             (Some (or_default m (js "Password change failed")))
       end
  /\ snd (dispatch env do_registerCitizen w)
     = match post_citizens_add env with
       | Resolved response => registerCitizen_fulfilled response
       | Thrown m =>
           registerCitizen_rejected
             (Some (or_default m (js "Registration failed")))
       end.
Proof.
  destruct w as [ts st]. repeat split; run_dispatch; reflexivity.
Qed.

End AuthSliceProperties.

(** ** Routing *)

Section RoutingProperties.

Import Router Login.

Variable C : Type.


End RoutingProperties.

(** ** Concrete runs *)

Section Runs.

Import Samples.

(** The reset-password form with "Str0ng!Pass" typed twice is accepted,
    and so the password has the five properties. *)
Lemma reset_password_gate_witness :
  let formData :=
    ResetPassword.mkFormData (js "Str0ng!Pass") (js "Str0ng!Pass") in
  fst (ResetPassword.validateForm formData) = true
  /\ 8 <= List.length (ResetPassword.password formData)
  /\ Documented.has_uppercase (ResetPassword.password formData) = true
  /\ Documented.has_lowercase (ResetPassword.password formData) = true
  /\ Documented.has_digit (ResetPassword.password formData) = true
  /\ Documented.has_special (ResetPassword.password formData) = true.
Proof.
  intros formData.
  assert (H : fst (ResetPassword.validateForm formData) = true)
    by (vm_compute; reflexivity).
  split; [exact H | exact (proj1 reset_password_gate formData H)].
Defined.

(** "Abcdef12" passes four criteria and scores medium. *)
Lemma strength_scorer_witness :
  (Documented.criteria_passed (js "Abcdef12") = 3
   \/ Documented.criteria_passed (js "Abcdef12") = 4)
  /\ ResetPassword.checkPasswordStrength (js "Abcdef12")
     = ResetPassword.medium.
Proof.
  assert (H : Documented.criteria_passed (js "Abcdef12") = 3
              \/ Documented.criteria_passed (js "Abcdef12") = 4)
    by (right; vm_compute; reflexivity).
  split; [exact H |].
  exact (proj1 (proj2 (proj1 strength_scorer (js "Abcdef12"))) H).
Defined.

(** "Str0ng!Pass" passes the expression and scores strong. *)
Lemma accepted_password_is_strong_witness :
  ResetPassword.passwordRegex (js "Str0ng!Pass") = true
  /\ ResetPassword.checkPasswordStrength (js "Str0ng!Pass")
     = ResetPassword.strong.
Proof.
  assert (H : ResetPassword.passwordRegex (js "Str0ng!Pass") = true)
    by (vm_compute; reflexivity).
  split; [exact H | exact (accepted_password_is_strong _ H)].
Defined.

(** A registration form with an email that is not verified is blocked. *)
Lemma registration_blocked_witness :
  let formData := Register.formData awaiting_otp in
  (Register.email formData <> [] /\ false = false)
  /\ fst (Register.validateForm formData false) = false.
Proof.
  intros formData.
  assert (H : Register.email formData <> [] /\ false = false)
    by (split; [vm_compute; discriminate | reflexivity]).
  split; [exact H |].
  apply registration_blocked. right. left. exact H.
Defined.

(** The server answers "Email verified." to six digits: the email is
    verified and the OTP input is closed. *)
Lemma otp_confirmation_witness :
  let post_mail_confirm :=
    fun _ _ : jsstring =>
      Resolved (Some (mkApiResponse (Some (js "Email verified.")))) in
  List.length (join (Register.otp awaiting_otp)) = 6
  /\ Register.isEmailVerified
       (Register.handleVerifyOtp post_mail_confirm awaiting_otp) = true
  /\ Register.showOtpModal
       (Register.handleVerifyOtp post_mail_confirm awaiting_otp) = false
  /\ Register.verificationError
       (Register.handleVerifyOtp post_mail_confirm awaiting_otp) = [].
Proof.
  intros post_mail_confirm.
  assert (H : List.length (join (Register.otp awaiting_otp)) = 6)
    by reflexivity.
  split; [exact H |].
  exact (proj1 (otp_confirmation post_mail_confirm awaiting_otp H)
           _ eq_refl eq_refl).
Defined.

(** C6 fails as stated.  A resolved response whose message is the empty
    string is not "Email verified.", yet the inline error shown is
    "Invalid OTP", not that message; and an error response whose message
    is exactly "Email verified." does not verify the email. *)
Lemma otp_confirmation_counterexample :
  let empty_message :=
    fun _ _ : jsstring => Resolved (Some (mkApiResponse (Some []))) in
  let failed_with_success_text :=
    fun _ _ : jsstring =>
      @Thrown (option ApiResponse) (Some (js "Email verified.")) in
  List.length (join (Register.otp awaiting_otp)) = 6
  /\ Register.verificationError
       (Register.handleVerifyOtp empty_message awaiting_otp)
     = js "Invalid OTP"
  /\ Register.verificationError
       (Register.handleVerifyOtp empty_message awaiting_otp) <> []
  /\ Register.isEmailVerified
       (Register.handleVerifyOtp failed_with_success_text awaiting_otp)
     = false.
Proof.
  repeat split. vm_compute. discriminate.
Qed.

(** The initial state for a stored token, with nothing in flight, is
    authenticated without a user: a token is in the store, and one was
    there at initialization. *)
Lemma authenticated_state_has_token_witness :
  let s := AuthSlice.mkSystem (AuthSlice.init (Some old_token)) [] in
  AuthSlice.reachable_in_turn (Some old_token) s
  /\ AuthSlice.inflight s = []
  /\ AuthSlice.isAuthenticated (AuthSlice.auth (AuthSlice.world s)) = true
  /\ AuthSlice.user (AuthSlice.auth (AuthSlice.world s)) = None
  /\ AuthSlice.store (AuthSlice.world s) <> None
  /\ Some old_token <> None.
Proof.
  cbv zeta.
  assert (H1 : AuthSlice.reachable_in_turn (Some old_token)
                 (AuthSlice.mkSystem (AuthSlice.init (Some old_token)) []))
    by apply AuthSlice.in_turn_start.
  assert (H2 : AuthSlice.inflight
                 (AuthSlice.mkSystem (AuthSlice.init (Some old_token)) [])
               = [])
    by reflexivity.
  assert (H3 : AuthSlice.isAuthenticated
                 (AuthSlice.auth
                    (AuthSlice.world
                       (AuthSlice.mkSystem
                          (AuthSlice.init (Some old_token)) [])))
               = true)
    by reflexivity.
  assert (H4 : AuthSlice.user
                 (AuthSlice.auth
                    (AuthSlice.world
                       (AuthSlice.mkSystem
                          (AuthSlice.init (Some old_token)) [])))
               = None)
    by reflexivity.
  split; [exact H1 | split; [exact H2 | split; [exact H3 |]]].
  split; [exact H4 | split].
  - exact (proj1 (proj2 (proj2 (proj2 authenticated_state_has_token)))
             _ _ H1 H2 H3).
  - exact (proj1 (proj2 authenticated_state_has_token) _ _
             (proj1 (proj2 (proj2 (proj2 (proj2
                authenticated_state_has_token)))) _ _ H1)
             H3 H4).
Defined.

(** C1 fails as stated.  The state produced at initialization for a
    stored token that has expired (expiry 1000, read at time 2000) has
    [isAuthenticated = true], while the only stored token is expired,
    [user] is absent and no request is in flight.  And with a valid token
    stored, a logout that falls between the dispatch of a check-auth and
    the answer to its profile lookup is followed by the check-auth
    settling as fulfilled: the state is authenticated while the token
    store is empty and nothing is in flight. *)
Lemma expired_token_authenticated_at_start :
  let w := AuthSlice.init (Some old_token) in
  let s :=
    AuthSlice.play logout_during_checkAuth
      (AuthSlice.mkSystem (AuthSlice.init (Some new_token)) []) in
  AuthSlice.reachable_from (Some old_token) (AuthSlice.mkSystem w [])
  /\ AuthSlice.isAuthenticated (AuthSlice.auth w) = true
  /\ AuthSlice.store w = Some old_token
  /\ AuthService.isTokenExpired 2000 old_token = true
  /\ AuthSlice.user (AuthSlice.auth w) = None
  /\ AuthSlice.loading (AuthSlice.auth w) = false
  /\ AuthSlice.reachable_from (Some new_token) s
  /\ AuthService.isTokenExpired 2000 new_token = false
  /\ AuthSlice.isAuthenticated (AuthSlice.auth (AuthSlice.world s)) = true
  /\ AuthSlice.store (AuthSlice.world s) = None
  /\ AuthSlice.inflight s = [].
Proof.
  cbv zeta.
  split; [apply AuthSlice.reachable_start |].
  do 5 (split; [reflexivity |]).
  split; [| repeat split].
  unfold logout_during_checkAuth, AuthSlice.play. cbn [fold_left].
  repeat apply AuthSlice.reachable_react. apply AuthSlice.reachable_start.
Qed.

(** C4 fails as stated.  Dispatching [registerCitizen] does not set
    [loading], and its rejection does not set [error]; a rejection of
    logout does not reset [isAuthenticated] nor [user]. *)
Lemma register_and_logout_rejection :
  AuthSlice.loading
    (AuthSlice.auth
       (AuthSlice.reducer (AuthSlice.init None)
          AuthSlice.registerCitizen_pending)) = false
  /\ AuthSlice.error
       (AuthSlice.auth
          (AuthSlice.reducer (AuthSlice.init None)
             (AuthSlice.registerCitizen_rejected
                (Some (js "Registration failed"))))) = None
  /\ AuthSlice.isAuthenticated
       (AuthSlice.auth
          (AuthSlice.reducer signed_in
             (AuthSlice.logoutThunk_rejected (Some (js "Logout failed")))))
     = true
  /\ AuthSlice.user
       (AuthSlice.auth
          (AuthSlice.reducer signed_in
             (AuthSlice.logoutThunk_rejected (Some (js "Logout failed")))))
     = Some alice.
Proof.
  repeat split.
Qed.



End Runs.

(** ** The email and phone patterns *)

Section ContactPatterns.

Import Register Documented.

Lemma lang_plus_cls (p : char -> bool) (s : jsstring) :
  lang (plus (Cls p)) s <-> s <> [] /\ forallb p s = true.
Proof.
  unfold plus. split.
  - intros H. apply lang_cat_inv in H. destruct H as (u & v & -> & Hu & Hv).
    apply lang_cls_inv in Hu. destruct Hu as (c & -> & Hc).
    apply lang_star_cls in Hv. simpl. rewrite Hc, Hv.
    split; [discriminate | reflexivity].
  - intros [Hne Hall]. destruct s as [| c s]; [congruence |].
    simpl in Hall. apply andb_true_iff in Hall. destruct Hall as [Hc Hs].
    apply (lang_cat (u := [c])); [constructor; exact Hc |].
    apply lang_star_cls. exact Hs.
Qed.

Lemma lang_lit_inv (a : ascii) (s : jsstring) :
  lang (lit a) s <-> s = [code a].
Proof.
  unfold lit. split.
  - intros H. apply lang_cls_inv in H. destruct H as (c & -> & Hc).
    apply N.eqb_eq in Hc. congruence.
  - intros ->. constructor. apply N.eqb_refl.
Qed.

(** The three parts of an accepted email. *)
Lemma emailRegex_parts (s : jsstring) :
  emailRegex s = true ->
  exists u v w,
    s = u ++ code "@" :: v ++ code "." :: w
    /\ u <> [] /\ v <> [] /\ w <> []
    /\ forallb not_space_at u = true
    /\ forallb not_space_at v = true
    /\ forallb not_space_at w = true.
Proof.
  unfold emailRegex, test_anchored. simpl forallb. rewrite andb_true_l.
  rewrite full_match_lang.
  intros H. apply lang_cat_inv in H. destruct H as (u & r1 & -> & Hu & H).
  apply lang_cat_inv in H. destruct H as (a & r2 & -> & Ha & H).
  apply lang_cat_inv in H. destruct H as (v & r3 & -> & Hv & H).
  apply lang_cat_inv in H. destruct H as (d & w & -> & Hd & Hw).
  apply lang_lit_inv in Ha. apply lang_lit_inv in Hd. subst a d.
  apply lang_plus_cls in Hu. apply lang_plus_cls in Hv.
  apply lang_plus_cls in Hw.
  exists u, v, w. simpl. tauto.
Qed.

(** X1.  The email pattern accepts exactly the strings of the form
    [local@domain.tld] whose three parts are non-empty and contain neither
    white space nor "@". *)
Theorem emailRegex_shape (s : jsstring) :
  emailRegex s = true <->
  exists u v w,
    s = u ++ code "@" :: v ++ code "." :: w
    /\ u <> [] /\ v <> [] /\ w <> []
    /\ forallb not_space_at u = true
    /\ forallb not_space_at v = true
    /\ forallb not_space_at w = true.
Proof.
  split; [apply emailRegex_parts |].
  unfold emailRegex, test_anchored. simpl forallb. rewrite andb_true_l.
  rewrite full_match_lang.
  intros (u & v & w & -> & Hu & Hv & Hw & Au & Av & Aw).
  apply lang_cat; [apply lang_plus_cls; auto |].
  apply (lang_cat (u := [code "@"])); [apply lang_lit_inv; reflexivity |].
  apply lang_cat; [apply lang_plus_cls; auto |].
  apply (lang_cat (u := [code "."])); [apply lang_lit_inv; reflexivity |].
  apply lang_plus_cls; auto.
Qed.

Lemma not_space_at_no_at (u : jsstring) :
  forallb not_space_at u = true ->
  count_occ N.eq_dec u (code "@") = 0 /\ existsb space u = false.
Proof.
  induction u as [| c u IH]; cbn [forallb count_occ existsb]; [auto |].
  rewrite andb_true_iff. intros [Hc Hu]. destruct (IH Hu) as [IH1 IH2].
  unfold not_space_at in Hc. apply negb_true_iff in Hc.
  apply orb_false_iff in Hc. destruct Hc as [Hs Ha].
  apply N.eqb_neq in Ha. rewrite Hs, IH2.
  destruct (N.eq_dec c (code "@")) as [E | _]; [congruence |].
  split; [exact IH1 | reflexivity].
Qed.

(** X2.  An accepted email contains exactly one "@", no white space, and
    at least five characters. *)
Theorem emailRegex_one_at (s : jsstring) :
  emailRegex s = true ->
  count_occ N.eq_dec s (code "@") = 1
  /\ existsb space s = false
  /\ 5 <= List.length s.
Proof.
  intros H. apply emailRegex_parts in H.
  destruct H as (u & v & w & -> & Hu & Hv & Hw & Au & Av & Aw).
  destruct (not_space_at_no_at _ Au) as [Cu Su].
  destruct (not_space_at_no_at _ Av) as [Cv Sv].
  destruct (not_space_at_no_at _ Aw) as [Cw Sw].
  repeat split.
  - rewrite count_occ_app. cbn [count_occ].
    destruct (N.eq_dec (code "@") (code "@")) as [_ | Hn]; [| congruence].
    rewrite count_occ_app. cbn [count_occ].
    destruct (N.eq_dec (code ".") (code "@")) as [E | _];
      [vm_compute in E; discriminate |].
    unfold char in *. rewrite Cu, Cv, Cw. reflexivity.
  - rewrite existsb_app. simpl. rewrite existsb_app. simpl.
    rewrite Su, Sv, Sw. reflexivity.
  - destruct u; [congruence |]. destruct v; [congruence |].
    destruct w; [congruence |].
    rewrite length_app. simpl. rewrite length_app. simpl. lia.
Qed.

(** X3.  The phone pattern accepts exactly an optional "+" followed by at
    least ten characters, each a digit, white space or "-"; it asks for no
    digit at all. *)
Theorem phoneRegex_shape (s : jsstring) :
  phoneRegex s
  = Nat.leb 10 (List.length (after_plus s))
    && forallb phone_char (after_plus s).
Proof.
  apply eq_true_iff_eq.
  rewrite <- (full_match_at_least phone_char 10 (after_plus s)).
  unfold phoneRegex, test_anchored. simpl forallb. rewrite andb_true_l.
  rewrite !full_match_lang.
  assert (Hplus : phone_char (code "+") = false) by reflexivity.
  assert (Hhead : forall c t,
             lang (at_least 10 (Cls phone_char)) (c :: t) ->
             N.eqb c (code "+") = false).
  { intros c t H. apply full_match_lang in H.
    rewrite full_match_at_least in H. apply andb_true_iff in H.
    destruct H as [_ H]. simpl in H. apply andb_true_iff in H.
    destruct H as [Hc _]. destruct (N.eqb c (code "+")) eqn:E; [| reflexivity].
    apply N.eqb_eq in E. subst c. congruence. }
  split.
  - intros H. apply lang_cat_inv in H. destruct H as (u & v & -> & Hu & Hv).
    unfold opt in Hu. apply lang_alt_inv in Hu. destruct Hu as [Hu | Hu].
    + apply lang_lit_inv in Hu. subst u. cbn [app after_plus].
      rewrite N.eqb_refl. exact Hv.
    + apply lang_eps_inv in Hu. subst u. cbn [app].
      destruct v as [| c t]; [exact Hv |]. cbn [after_plus].
      rewrite (Hhead _ _ Hv). exact Hv.
  - intros H. destruct s as [| c t]; cbn [after_plus] in H.
    + apply (lang_cat (u := [])); [apply lang_alt_r; constructor | exact H].
    + destruct (N.eqb c (code "+")) eqn:E.
      * apply N.eqb_eq in E. subst c.
        apply (lang_cat (u := [code "+"])); [| exact H].
        apply lang_alt_l. apply lang_lit_inv. reflexivity.
      * apply (lang_cat (u := [])); [apply lang_alt_r; constructor | exact H].
Qed.

End ContactPatterns.

(** ** Registration screen: the whole validation and the other handlers *)

Section RegisterHandlers.

Import Register Documented.

(** X4.  The registration form is valid exactly when an email or a phone
    number is given, a given email is well formed and verified, a given
    phone number is well formed, the password has at least 8 characters
    and the confirmation repeats it.  Nothing else blocks the form; a phone
    number needs no verification. *)
Theorem registration_accepted_iff (formData : FormData) (verified : bool) :
  fst (validateForm formData verified) = true <->
  (email formData <> [] \/ phoneNumber formData <> [])
  /\ (email formData = []
      \/ (emailRegex (email formData) = true /\ verified = true))
  /\ (phoneNumber formData = []
      \/ phoneRegex (phoneNumber formData) = true)
  /\ 8 <= List.length (password formData)
  /\ confirmPassword formData = password formData.
Proof.
  rewrite validateForm_isValid.
  destruct (Nat.ltb_spec (List.length (password formData)) 8) as [Hl | Hl];
    destruct (eqb (password formData) (confirmPassword formData)) eqn:Hc;
    [apply eqb_eq in Hc | | apply eqb_eq in Hc |];
    try (assert (Hc' : password formData <> confirmPassword formData)
          by (intros E; apply eqb_eq in E; congruence));
    destruct (email formData) as [| e es];
    destruct (phoneNumber formData) as [| q qs];
    cbn [truthy negb andb orb];
    repeat match goal with
      | |- context [emailRegex ?x] => destruct (emailRegex x)
      | |- context [phoneRegex ?x] => destruct (phoneRegex x)
      end;
    destruct verified; cbn [negb andb orb];
    (split;
     [ intros H; try discriminate H;
       repeat split; auto; try (right; split; reflexivity);
       try (left; discriminate); try (right; discriminate); try lia
     | intros (H1 & H2 & H3 & H4 & H5);
       try reflexivity; exfalso;
       repeat match goal with
         | H : _ \/ _ |- _ => destruct H
         | H : _ /\ _ |- _ => destruct H
         end;
       try congruence; try lia ]).
Qed.

(** X5.  The form is blocked exactly when at least one field error is
    set: [isValid] is true if and only if the four error texts handed to
    [setFormErrors] are all empty. *)
Theorem registration_errors_iff (formData : FormData) (verified : bool) :
  fst (validateForm formData verified) = true <->
  snd (validateForm formData verified) = FormErrors.mk [] [] [] [].
Proof.
  unfold validateForm.
  destruct (negb (truthy (email formData))
            && negb (truthy (phoneNumber formData)));
    destruct (truthy (email formData) && negb (emailRegex (email formData)));
    destruct (truthy (phoneNumber formData)
              && negb (phoneRegex (phoneNumber formData)));
    destruct (Nat.ltb (List.length (password formData)) 8);
    destruct (negb (eqb (password formData) (confirmPassword formData)));
    destruct (truthy (email formData) && negb verified);
    cbn [fst snd];
    (split; intros H;
     [ try discriminate H; reflexivity
     | try reflexivity; vm_compute in H; discriminate H ]).
Qed.

(** X6.  Editing the email field, even to the text it already holds,
    discards the verification, so that a form with a non-empty email is
    blocked afterwards; editing any other field keeps the verification
    state. *)
Theorem email_edit_discards_verification (value : jsstring) (st : State) :
  isEmailVerified (handleChange email_field value st) = false
  /\ (value <> [] ->
      fst (run_validateForm (handleChange email_field value st)) = false)
  /\ (forall name : field,
         name <> email_field ->
         isEmailVerified (handleChange name value st) = isEmailVerified st
         /\ email (Register.formData (handleChange name value st))
            = email (Register.formData st)).
Proof.
  split; [reflexivity | split].
  - intros Hv. unfold run_validateForm.
    destruct (validateForm
                (Register.formData (handleChange email_field value st))
                (isEmailVerified (handleChange email_field value st)))
      as [valid errors] eqn:E.
    cbn [fst]. change valid with (fst (valid, errors)). rewrite <- E.
    rewrite validateForm_isValid. apply negb_false_iff.
    change (email (Register.formData (handleChange email_field value st)))
      with value.
    change (isEmailVerified (handleChange email_field value st)) with false.
    apply truthy_true in Hv. rewrite Hv. cbn [negb andb].
    apply orb_true_r.
  - intros name Hn. destruct name; try congruence; split; reflexivity.
Qed.

End RegisterHandlers.

(** ** Registration screen: sending the code and the OTP boxes *)

Section OtpProperties.

Import Register Documented.

Lemma includes_nil_l (sub : jsstring) :
  sub <> [] -> includes [] sub = false.
Proof. destruct sub; [congruence | reflexivity]. Qed.

Lemma startsWith_spec (sub : jsstring) :
  forall s, startsWith s sub = true <-> exists v, s = sub ++ v.
Proof.
  induction sub as [| x sub IH]; intros s.
  - destruct s; simpl; split; eauto.
  - destruct s as [| y s]; simpl.
    + split; [discriminate | intros (v & Hv); discriminate].
    + rewrite andb_true_iff, N.eqb_eq, IH. split.
      * intros [-> (v & ->)]. eauto.
      * intros (v & Hv). injection Hv as -> ->. eauto.
Qed.

(** [includes] finds a substring wherever it starts. *)
Lemma includes_spec (sub s : jsstring) :
  includes s sub = true <-> exists u v, s = u ++ sub ++ v.
Proof.
  induction s as [| y s IH].
  - cbn [includes]. rewrite orb_false_r, startsWith_spec. split.
    + intros (v & Hv). exists [], v. exact Hv.
    + intros (u & v & Hv). destruct u; simpl in Hv.
      * eauto.
      * discriminate.
  - cbn [includes]. rewrite orb_true_iff, startsWith_spec, IH. split.
    + intros [(v & Hv) | (u & v & Hv)].
      * exists [], v. exact Hv.
      * exists (y :: u), v. simpl. congruence.
    + intros (u & v & Hv). destruct u as [| z u]; simpl in Hv.
      * left. eauto.
      * right. injection Hv as _ ->. eauto.
Qed.

(** X7.  Asking for a verification code with an email that is not well
    formed (the empty one included) contacts no server: only the email
    error is set.  With a well formed email, the email ends verified
    exactly when it already was or the message of the answer, resolved or
    failed, contains "already verified"; the OTP input opens only for a
    resolved answer with a non-empty message that does not; and the
    sending flag is off again. *)
Theorem send_verification_outcome
    (post_mail_send : jsstring -> result (option ApiResponse)) (st : State) :
  let answer := post_mail_send (email (formData st)) in
  let st' := handleSendVerification post_mail_send st in
  (emailRegex (email (formData st)) = false ->
   st' = setFormErrors
           (FormErrors.with_email (js "Please enter a valid email address")
              (formErrors st)) st)
  /\ (emailRegex (email (formData st)) = true ->
      isEmailVerified st'
      = isEmailVerified st
        || includes_opt (reply_message answer) (js "already verified")
      /\ showOtpModal st'
         = showOtpModal st
           || (resolved answer
               && truthy (or_default (reply_message answer) [])
               && negb (includes_opt (reply_message answer)
                          (js "already verified")))
      /\ verificationLoading st' = false).
Proof.
  intros answer st'. subst answer st'. unfold handleSendVerification.
  split; intros Hre; rewrite Hre.
  - rewrite orb_true_r. reflexivity.
  - assert (Ht : truthy (email (formData st)) = true).
    { destruct (email (formData st));
        [vm_compute in Hre; discriminate | reflexivity]. }
    rewrite Ht. cbn [negb orb]. cbv zeta.
    change (email (formData (setVerificationError []
                               (setVerificationLoading true st))))
      with (email (formData st)).
    destruct (post_mail_send (email (formData st))) as [data | m];
      cbn [reply_message resolved].
    + destruct (message_of data) as [msg |] eqn:Em;
        cbn [or_default includes_opt].
      * destruct (truthy msg) eqn:Tm.
        -- cbn [truthy]. rewrite Tm.
           destruct (includes msg (js "already verified"));
             cbn; rewrite ?orb_true_r, ?orb_false_r; repeat split.
        -- apply truthy_false in Tm. subst msg.
           cbn; rewrite ?orb_true_r, ?orb_false_r; repeat split.
      * cbn; rewrite ?orb_true_r, ?orb_false_r; repeat split.
    + destruct (includes_opt m (js "already verified"));
        cbn; rewrite ?orb_true_r, ?orb_false_r; repeat split.
Qed.

Lemma opt_digit_box (value : jsstring) :
  test_anchored [] (opt (Cls digit)) value = otp_box value.
Proof.
  unfold test_anchored. simpl forallb. rewrite andb_true_l.
  apply eq_true_iff_eq. rewrite full_match_lang. unfold opt. split.
  - intros H. apply lang_alt_inv in H. destruct H as [H | H].
    + apply lang_cls_inv in H. destruct H as (c & -> & Hc). exact Hc.
    + apply lang_eps_inv in H. subst value. reflexivity.
  - destruct value as [| c [| c' rest]]; simpl; intros H.
    + apply lang_alt_r. constructor.
    + apply lang_alt_l. constructor. exact H.
    + discriminate.
Qed.

Lemma full_match_exactly (p : char -> bool) (n : nat) :
  forall s,
    full_match (exactly n (Cls p)) s
    = Nat.eqb (List.length s) n && forallb p s.
Proof.
  induction n as [| n IH]; intros s.
  - destruct s as [| c s]; [reflexivity |].
    simpl. clear. induction s as [| c' s IHs]; [reflexivity | exact IHs].
  - destruct s as [| c s]; [reflexivity |].
    cbn [exactly List.length forallb Nat.eqb].
    apply eq_true_iff_eq. rewrite !andb_true_iff, full_match_lang. split.
    + intros H. apply lang_cat_inv in H.
      destruct H as (u & v & Huv & Hu & Hv).
      apply lang_cls_inv in Hu. destruct Hu as (c' & -> & Hc).
      injection Huv as -> ->.
      apply full_match_lang in Hv. rewrite IH in Hv.
      apply andb_true_iff in Hv. tauto.
    + intros (Hl & Hc & Hs).
      apply (lang_cat (u := [c])); [constructor; exact Hc |].
      apply full_match_lang. rewrite IH, Hl, Hs. reflexivity.
Qed.

Lemma array_set_length (value : jsstring) (a : list jsstring) :
  forall index, index < List.length a ->
                List.length (array_set index value a) = List.length a.
Proof.
  induction a as [| x a IH]; intros index Hi; simpl in Hi; [lia |].
  destruct index as [| i]; [reflexivity |].
  simpl. rewrite IH; [reflexivity | lia].
Qed.

Lemma array_set_boxes (value : jsstring) (a : list jsstring) :
  otp_box value = true ->
  forallb otp_box a = true ->
  forall index, index < List.length a ->
                forallb otp_box (array_set index value a) = true.
Proof.
  intros Hv. induction a as [| x a IH]; intros Ha index Hi; simpl in Hi;
    [lia |].
  simpl in Ha. apply andb_true_iff in Ha. destruct Ha as [Hx Ha].
  destruct index as [| i]; simpl.
  - rewrite Hv, Ha. reflexivity.
  - rewrite Hx. apply IH; [exact Ha | lia].
Qed.

Lemma join_singletons (s : jsstring) : join (map (fun c => [c]) s) = s.
Proof.
  unfold join. induction s as [| c s IH]; simpl; [reflexivity |].
  rewrite IH. reflexivity.
Qed.

Lemma singletons_boxes (s : jsstring) :
  forallb digit s = true -> forallb otp_box (map (fun c => [c]) s) = true.
Proof.
  induction s as [| c s IH]; simpl; [reflexivity |].
  rewrite andb_true_iff. intros [Hc Hs]. rewrite Hc. auto.
Qed.

(** What Backspace does in an input of the OTP buffer: the previous
    input is asked for exactly when the box is empty and is not the
    first. *)
Lemma handleKeyDown_focus (st : State) (index : nat) (key : jsstring)
    (n : nat) :
  handleKeyDown index key st = Some n
  <-> key = js "Backspace"
      /\ nth_error (otp st) index = Some [] /\ S n = index.
Proof.
  unfold handleKeyDown. split.
  - destruct (eqb key (js "Backspace")) eqn:Hk; cbn [andb];
      [| discriminate].
    apply eqb_eq in Hk.
    destruct (nth_error (otp st) index) as [box |]; cbn [andb];
      [| discriminate].
    destruct (truthy box) eqn:Hb; cbn [negb andb]; [discriminate |].
    apply truthy_false in Hb. subst box.
    destruct (Nat.ltb 0 index) eqn:Hi; [| discriminate].
    apply Nat.ltb_lt in Hi. intros Hn. injection Hn as <-.
    split; [exact Hk | split; [reflexivity | lia]].
  - intros (-> & -> & <-). rewrite eqb_refl. cbn [truthy negb andb].
    cbn [Nat.ltb Nat.leb Nat.sub]. rewrite Nat.sub_0_r. reflexivity.
Qed.

(** X8.  The OTP buffer always consists of six boxes, each empty or
    holding one digit: this holds of the initial buffer and is kept by
    typing into any of the six inputs and by pasting, whatever is typed or
    pasted.  Typing asks for the focus of the next input exactly when the
    value is one digit and the input is not the last: the focus asked for
    stays within the six inputs.  Backspace asks for the focus of the
    previous input exactly when the box is empty and is not the first: on
    an empty box other than the first it does so, and in the first input
    no key moves the focus. *)
Theorem otp_buffer_invariant :
  otp_well_formed initial_otp
  /\ (forall (st : State) (index : nat) (value : jsstring),
         otp_well_formed (otp st) -> index < 6 ->
         otp_well_formed (otp (fst (handleOtpChange index value st)))
         /\ (forall n, snd (handleOtpChange index value st) = Some n ->
                       n = index + 1 /\ n < 6))
  /\ (forall (st : State) (clipboard : jsstring),
         otp_well_formed (otp st) ->
         otp_well_formed (otp (fst (handleOtpPaste clipboard st))))
  /\ (forall (st : State) (index : nat) (key : jsstring) (n : nat),
         handleKeyDown index key st = Some n -> S n = index)
  /\ (forall (st : State) (index : nat) (value : jsstring),
         snd (handleOtpChange index value st)
         = if otp_box value && truthy value && Nat.ltb index 5
           then Some (index + 1)
           else None)
  /\ (forall (st : State) (index : nat) (key : jsstring) (n : nat),
         handleKeyDown index key st = Some n
         <-> key = js "Backspace"
             /\ nth_error (otp st) index = Some [] /\ S n = index)
  /\ (forall (st : State) (index : nat),
         0 < index -> nth_error (otp st) index = Some [] ->
         handleKeyDown index (js "Backspace") st = Some (index - 1))
  /\ (forall (st : State) (key : jsstring), handleKeyDown 0 key st = None).
Proof.
  split; [split; reflexivity |].
  split; [| split; [| split; [| split; [| split; [| split]]]]].
  - intros st index value [Hlen Hall] Hi. unfold handleOtpChange.
    rewrite opt_digit_box.
    destruct (otp_box value) eqn:Hv; cbn [negb].
    + assert (Hwf : otp_well_formed (array_set index value (otp st))).
      { split.
        - rewrite array_set_length; [exact Hlen | lia].
        - apply array_set_boxes; [exact Hv | exact Hall | lia]. }
      destruct (truthy value && Nat.ltb index 5) eqn:Hf; cbn [fst snd].
      * split; [exact Hwf |]. intros n Hn. injection Hn as <-.
        apply andb_true_iff in Hf. destruct Hf as [_ Hf].
        apply Nat.ltb_lt in Hf. lia.
      * split; [exact Hwf | discriminate].
    + cbn [fst snd]. split; [split; assumption | discriminate].
  - intros st clipboard Hwf. unfold handleOtpPaste, test_anchored.
    simpl forallb. rewrite andb_true_l, full_match_exactly.
    destruct (Nat.eqb (List.length (trim clipboard)) 6
              && forallb digit (trim clipboard)) eqn:Hok; cbn [fst].
    + apply andb_true_iff in Hok. destruct Hok as [Hl Hd].
      apply Nat.eqb_eq in Hl. split.
      * cbn [otp setOtp]. rewrite length_map. exact Hl.
      * cbn [otp setOtp]. apply singletons_boxes. exact Hd.
    + exact Hwf.
  - intros st index key n Hn.
    apply handleKeyDown_focus in Hn. tauto.
  - intros st index value. unfold handleOtpChange.
    rewrite opt_digit_box.
    destruct (otp_box value); cbn [negb andb]; [| reflexivity].
    destruct (truthy value && Nat.ltb index 5); reflexivity.
  - exact handleKeyDown_focus.
  - intros st index Hi Hbox. apply handleKeyDown_focus.
    split; [reflexivity | split; [exact Hbox | lia]].
  - intros st key. destruct (handleKeyDown 0 key st) as [n |] eqn:Hn;
      [| reflexivity].
    apply handleKeyDown_focus in Hn. destruct Hn as (_ & _ & Hn).
    discriminate.
Qed.

Lemma trimStart_spaces (a s : jsstring) :
  forallb space a = true -> trimStart (a ++ s) = trimStart s.
Proof.
  induction a as [| c a IH]; simpl; [reflexivity |].
  rewrite andb_true_iff. intros [Hc Ha]. rewrite Hc. auto.
Qed.

Lemma trimStart_digits (d s : jsstring) :
  d <> [] -> forallb digit d = true -> trimStart (d ++ s) = d ++ s.
Proof.
  destruct d as [| c d]; [congruence |]. intros _ Hd. simpl in Hd.
  apply andb_true_iff in Hd. destruct Hd as [Hc _]. simpl.
  assert (Hs : space c = false).
  { unfold digit, in_range in Hc. unfold space.
    change (code "0") with 48%N in Hc. change (code "9") with 57%N in Hc.
    rewrite andb_true_iff, !N.leb_le in Hc.
    rewrite !orb_false_iff, andb_false_iff, !N.eqb_neq, !N.leb_gt. lia. }
  rewrite Hs. reflexivity.
Qed.

Lemma forallb_rev_true (p : char -> bool) (s : jsstring) :
  forallb p s = true -> forallb p (rev s) = true.
Proof.
  rewrite !forallb_forall. intros H c Hc. apply H, in_rev, Hc.
Qed.

(** A code wrapped in white space is trimmed to the code. *)
Lemma trim_wrapped_digits (a d b : jsstring) :
  d <> [] -> forallb digit d = true ->
  forallb space a = true -> forallb space b = true ->
  trim (a ++ d ++ b) = d.
Proof.
  intros Hne Hd Ha Hb. unfold trim, trimEnd.
  rewrite trimStart_spaces by exact Ha.
  rewrite trimStart_digits by assumption.
  rewrite rev_app_distr.
  rewrite trimStart_spaces by (apply forallb_rev_true; exact Hb).
  rewrite <- (app_nil_r (rev d)).
  rewrite trimStart_digits.
  - rewrite app_nil_r. apply rev_involutive.
  - intros E. apply (f_equal (@rev char)) in E.
    rewrite rev_involutive in E. simpl in E. congruence.
  - apply forallb_rev_true. exact Hd.
Qed.

(** X9.  Pasting a six-digit code, with or without white space around it,
    fills the six boxes with exactly that code and asks the focus for the
    last input; pasting anything else changes nothing. *)
Theorem otp_paste_fills_boxes (st : State) :
  (forall a d b : jsstring,
      List.length d = 6 -> forallb digit d = true ->
      forallb space a = true -> forallb space b = true ->
      join (otp (fst (handleOtpPaste (a ++ d ++ b) st))) = d
      /\ snd (handleOtpPaste (a ++ d ++ b) st) = Some 5)
  /\ (forall clipboard : jsstring,
         Nat.eqb (List.length (trim clipboard)) 6
         && forallb digit (trim clipboard) = false ->
         handleOtpPaste clipboard st = (st, None)).
Proof.
  split.
  - intros a d b Hl Hd Ha Hb. unfold handleOtpPaste, test_anchored.
    simpl forallb. rewrite andb_true_l, full_match_exactly.
    rewrite trim_wrapped_digits; try assumption.
    + rewrite Hl, Hd. cbn [Nat.eqb andb fst snd otp setOtp].
      rewrite join_singletons. split; reflexivity.
    + intros E. subst d. discriminate.
  - intros clipboard H. unfold handleOtpPaste, test_anchored.
    simpl forallb. rewrite andb_true_l, full_match_exactly, H. reflexivity.
Qed.

(** A box holds at most one character. *)
Lemma otp_box_cases (d : jsstring) :
  otp_box d = true -> d = [] \/ exists c, d = [c].
Proof.
  destruct d as [| c [| c' rest]]; simpl; intros H;
    [left; reflexivity | right; eauto | discriminate].
Qed.

(** X10.  With a well-formed buffer, the joined code has six characters
    exactly when every box holds a digit; when a box is empty,
    [handleVerifyOtp] contacts no server and only sets the inline error
    "Please enter a valid 6-digit OTP". *)
Theorem otp_submitted_only_when_full
    (post_mail_confirm : jsstring -> jsstring -> result (option ApiResponse))
    (st : State) :
  otp_well_formed (otp st) ->
  (List.length (join (otp st)) = 6 <-> forallb truthy (otp st) = true)
  /\ (forallb truthy (otp st) = false ->
      handleVerifyOtp post_mail_confirm st
      = setVerificationError (js "Please enter a valid 6-digit OTP") st).
Proof.
  intros [Hlen Hall].
  assert (Hiff : List.length (join (otp st)) = 6
                 <-> forallb truthy (otp st) = true).
  { destruct (otp st) as [| b1 [| b2 [| b3 [| b4 [| b5 [| b6 [| b7 r]]]]]]];
      simpl in Hlen; try discriminate. clear Hlen.
    simpl in Hall. rewrite !andb_true_iff in Hall.
    destruct Hall as (H1 & H2 & H3 & H4 & H5 & H6 & _).
    destruct (otp_box_cases _ H1) as [-> | (c1 & ->)];
      destruct (otp_box_cases _ H2) as [-> | (c2 & ->)];
      destruct (otp_box_cases _ H3) as [-> | (c3 & ->)];
      destruct (otp_box_cases _ H4) as [-> | (c4 & ->)];
      destruct (otp_box_cases _ H5) as [-> | (c5 & ->)];
      destruct (otp_box_cases _ H6) as [-> | (c6 & ->)];
      simpl; split; intros H; try discriminate H; reflexivity. }
  split; [exact Hiff |].
  intros Hf. unfold handleVerifyOtp.
  destruct (Nat.eqb (List.length (join (otp st))) 6) eqn:E; [| reflexivity].
  apply Nat.eqb_eq, Hiff in E. congruence.
Qed.

End OtpProperties.

(** ** Forgot-password screen *)

Section ForgotPasswordProperties.

Import ForgotPassword.

(** X11.  Submitting the forgot-password form with an email that is not
    well formed (the empty one included) contacts no server: the error
    "Please enter a valid email address" is set and nothing else changes.
    The confirmation display is reached only from a well formed email and
    a resolved answer with a non-empty message; a failed request stores
    the server's message, or "Failed to send reset email", and never shows
    the confirmation. *)
Theorem forgot_password_submit
    (post : jsstring -> result (option ApiResponse)) (st : State) :
  (validateEmail (email st) = false ->
   handleSubmit post st
   = mkState (email st) (isLoading st) (isEmailSent st)
       (Some (js "Please enter a valid email address")) (toasts st))
  /\ (isEmailSent (handleSubmit post st) = true ->
      isEmailSent st = true
      \/ (validateEmail (email st) = true
          /\ exists data m,
              post (email st) = Resolved data
              /\ message_of data = Some m /\ m <> []))
  /\ (forall m,
         validateEmail (email st) = true ->
         post (email st) = Thrown m ->
         isEmailSent (handleSubmit post st) = isEmailSent st
         /\ error (handleSubmit post st)
            = Some (or_default m (js "Failed to send reset email"))
         /\ isLoading (handleSubmit post st) = false).
Proof.
  unfold handleSubmit.
  destruct (validateEmail (email st)) eqn:Hv.
  - assert (Ht : truthy (email st) = true).
    { unfold validateEmail in Hv. destruct (email st);
        [vm_compute in Hv; discriminate | reflexivity]. }
    rewrite Ht. cbn [negb orb]. split; [discriminate | split].
    + destruct (post (email st)) as [data | m]; [| cbn; auto].
      destruct (message_of data) as [msg |] eqn:Em; cbn [or_default];
        [| cbn; auto].
      destruct (truthy msg) eqn:Tm; cbn [truthy]; [| cbn; auto].
      rewrite Tm. intros _. right. split; [reflexivity |].
      exists data, msg. apply truthy_true in Tm. auto.
    + intros m _ Hp. rewrite Hp. repeat split.
  - rewrite orb_true_r. split; [reflexivity | split].
    + cbn. auto.
    + discriminate.
Qed.

End ForgotPasswordProperties.

(** ** Reset-password screen: the form and its submission *)

Section ResetPasswordHandlers.

Import ResetPassword Documented.

(** X12.  The reset-password form is accepted exactly when the password
    passes the expression and the confirmation repeats it (the separate
    length check only chooses the message), and an error text is left
    exactly when the form is rejected. *)
Theorem reset_password_accepted_iff (formData : FormData) :
  (fst (validateForm formData) = true <->
   passwordRegex (password formData) = true
   /\ confirmPassword formData = password formData)
  /\ (fst (validateForm formData) = true <->
      snd (validateForm formData) = None).
Proof.
  unfold validateForm.
  destruct (passwordRegex (password formData)) eqn:Hre.
  - pose proof (passwordRegex_criteria _ Hre) as (_ & _ & _ & _ & Hn).
    unfold long_enough in Hn. apply Nat.leb_le in Hn.
    assert (Ht : truthy (password formData) = true)
      by (destruct (password formData); [simpl in Hn; lia | reflexivity]).
    assert (Hl : Nat.ltb (List.length (password formData)) 8 = false)
      by (apply Nat.ltb_ge; exact Hn).
    rewrite Ht, Hl. cbn [negb orb].
    destruct (eqb (password formData) (confirmPassword formData)) eqn:Hc;
      cbn [negb fst snd].
    + apply eqb_eq in Hc. repeat split; auto.
    + assert (Hne : confirmPassword formData <> password formData)
        by (intros E; rewrite E, eqb_refl in Hc; discriminate).
      repeat split; try discriminate; intros [_ H]; congruence.
  - destruct (negb (truthy (password formData))
              || Nat.ltb (List.length (password formData)) 8);
      cbn [negb fst snd];
      repeat split; try discriminate; intros [H _]; discriminate.
Qed.

Lemma existsb_app_mono (p : char -> bool) (u s v : jsstring) :
  Nat.b2n (existsb p s) <= Nat.b2n (existsb p (u ++ s ++ v)).
Proof.
  rewrite !existsb_app.
  destruct (existsb p s), (existsb p u), (existsb p v); simpl; lia.
Qed.

(** X13.  Adding characters before or after a password never lowers the
    strength shown. *)
Theorem strength_never_drops (u s v : jsstring) :
  strength_rank (checkPasswordStrength s)
  <= strength_rank (checkPasswordStrength (u ++ s ++ v)).
Proof.
  rewrite !checkPasswordStrength_by_count.
  assert (Hc : criteria_passed s <= criteria_passed (u ++ s ++ v)).
  { unfold criteria_passed, has_uppercase, has_lowercase, has_digit,
      has_special, long_enough.
    pose proof (existsb_app_mono upper u s v).
    pose proof (existsb_app_mono lower u s v).
    pose proof (existsb_app_mono digit u s v).
    pose proof (existsb_app_mono special u s v).
    assert (Nat.b2n (Nat.leb 8 (List.length s))
            <= Nat.b2n (Nat.leb 8 (List.length (u ++ s ++ v)))).
    { rewrite !length_app.
      destruct (Nat.leb_spec 8 (List.length s));
        destruct (Nat.leb_spec 8
                    (List.length u + (List.length s + List.length v)));
        simpl; lia. }
    lia. }
  destruct (Nat.leb_spec (criteria_passed s) 2);
    destruct (Nat.leb_spec (criteria_passed s) 4);
    destruct (Nat.leb_spec (criteria_passed (u ++ s ++ v)) 2);
    destruct (Nat.leb_spec (criteria_passed (u ++ s ++ v)) 4);
    simpl; lia.
Qed.

(** X14.  The expression accepts a password exactly when the scorer calls
    it strong and every character is a letter, a digit or one of
    [@$!%*?&]: a strong password with any other character is refused. *)
Theorem accepted_iff_strong_and_plain (s : jsstring) :
  passwordRegex s = true <->
  checkPasswordStrength s = strong /\ forallb password_char s = true.
Proof.
  rewrite passwordRegex_spec, checkPasswordStrength_by_count.
  unfold criteria_passed, has_uppercase, has_lowercase, has_digit,
    has_special, long_enough.
  destruct (existsb lower s), (existsb upper s), (existsb digit s),
    (existsb special s), (Nat.leb 8 (List.length s)),
    (forallb password_char s); simpl; split;
    try discriminate; try tauto;
    intros [H1 H2]; discriminate.
Qed.

(** X15.  Submitting the reset-password form contacts no server when
    the form is rejected or the link carries no token: only the error of
    the validation is stored.  The success display is reached only with an
    accepted form, a non-empty token and a resolved answer with a non-empty
    message, and then a return to "/login" is scheduled after 3000 ms. *)
Theorem reset_submit_guarded
    (post : jsstring -> jsstring -> jsstring -> reply) (st : State) :
  (fst (validateForm (formData st)) = false \/ token_missing st = true ->
   handleSubmit post st
   = mkState (token st) (isLoading st) (isSuccess st)
       (snd (validateForm (formData st))) (isTokenValid st)
       (passwordStrength st) (formData st) (toasts st) (timers st))
  /\ (isSuccess (handleSubmit post st) = true ->
      isSuccess st = true
      \/ (fst (validateForm (formData st)) = true
          /\ (exists t m,
                 token st = Some t /\ t <> []
                 /\ post t (password (formData st))
                      (confirmPassword (formData st)) = Replied (Some m)
                 /\ m <> [])
          /\ timers (handleSubmit post st)
             = timers st ++ [(3000, js "/login")])).
Proof.
  unfold handleSubmit, token_missing.
  destruct (validateForm (formData st)) as [valid err] eqn:Ev.
  cbn [fst snd token formData password confirmPassword].
  destruct valid; cbn [negb].
  - destruct (token st) as [t |] eqn:Et.
    + destruct (truthy t) eqn:Tt; cbn [negb].
      * split; [intros [H | H]; discriminate |].
        destruct (post t (password (formData st))
                    (confirmPassword (formData st))) as [m | m] eqn:Ep.
        -- destruct m as [m |]; cbn [or_default].
           ++ destruct (truthy m) eqn:Tm; cbn [truthy].
              ** rewrite Tm. cbn [isSuccess timers]. intros _. right.
                 split; [reflexivity |]. split; [| reflexivity].
                 exists t, m. apply truthy_true in Tt.
                 apply truthy_true in Tm. auto.
              ** cbn. auto.
           ++ cbn. auto.
        -- cbn. auto.
      * split; [reflexivity | cbn; auto].
    + split; [reflexivity | cbn; auto].
  - split; [reflexivity | cbn; auto].
Qed.

(** X16.  A submission never makes an invalid reset link valid again.
    When the request fails, the link is marked invalid exactly when it
    already was or the message shown contains "expired" or "invalid" (in
    lower case); a failure without a message shows "Failed to reset
    password" and leaves the link as it was. *)
Theorem reset_link_validity
    (post : jsstring -> jsstring -> jsstring -> reply) (st : State) :
  (isTokenValid (handleSubmit post st) = true -> isTokenValid st = true)
  /\ (forall t m,
         fst (validateForm (formData st)) = true ->
         token st = Some t -> t <> [] ->
         post t (password (formData st)) (confirmPassword (formData st))
         = Failed m ->
         let shown := or_default m (js "Failed to reset password") in
         error (handleSubmit post st) = Some shown
         /\ isTokenValid (handleSubmit post st)
            = isTokenValid st
              && negb (includes shown (js "expired")
                       || includes shown (js "invalid"))
         /\ (or_default m [] = [] ->
             isTokenValid (handleSubmit post st) = isTokenValid st)).
Proof.
  unfold handleSubmit.
  destruct (validateForm (formData st)) as [valid err] eqn:Ev.
  cbn [fst token formData password confirmPassword].
  split.
  - destruct valid; cbn [negb]; [| cbn; auto].
    destruct (token st) as [t |]; [| cbn; auto].
    destruct (truthy t); cbn [negb]; [| cbn; auto].
    destruct (post t (password (formData st))
                (confirmPassword (formData st))) as [m | m].
    + destruct (truthy (or_default m [])); cbn; auto.
    + cbn [isTokenValid].
      destruct (includes (or_default m (js "Failed to reset password"))
                  (js "expired")
                || includes (or_default m (js "Failed to reset password"))
                     (js "invalid")); [discriminate | auto].
  - intros t m Hv Et Hne Hp. subst valid. cbn [negb].
    rewrite Et. apply truthy_true in Hne. rewrite Hne. cbn [negb].
    rewrite Hp. cbn [error isTokenValid].
    set (shown := or_default m (js "Failed to reset password")).
    split; [reflexivity | split].
    + destruct (includes shown (js "expired")
                || includes shown (js "invalid"));
        [rewrite andb_false_r | rewrite andb_true_r]; reflexivity.
    + intros Hm.
      assert (Hs : shown = js "Failed to reset password").
      { subst shown. destruct m as [[| c r] |]; try reflexivity.
        cbn in Hm. discriminate Hm. }
      rewrite Hs. reflexivity.
Qed.

(** X17.  The strength display is never stale: it starts so, and editing
    either field, validating the token and submitting keep it so; after
    an edit of the password it shows the strength of the new password. *)
Theorem strength_display_fresh :
  (forall token, strength_fresh (initial token))
  /\ (forall st name value,
         strength_fresh st -> strength_fresh (handleChange name value st))
  /\ (forall st value,
         passwordStrength (handleChange password_field value st)
         = Some (checkPasswordStrength value))
  /\ (forall st, strength_fresh st -> strength_fresh (validateToken st))
  /\ (forall post st,
         strength_fresh st -> strength_fresh (handleSubmit post st)).
Proof.
  split; [| split; [| split; [| split]]].
  - intros token. left. split; reflexivity.
  - intros st [|] value H; [right; reflexivity | exact H].
  - reflexivity.
  - intros st H. unfold validateToken.
    destruct (token_missing st); exact H.
  - intros post st H. unfold handleSubmit.
    destruct (validateForm (formData st)) as [valid err].
    destruct valid; cbn [negb]; [| exact H].
    cbn [token].
    destruct (token st) as [t |]; [| exact H].
    destruct (truthy t); cbn [negb]; [| exact H].
    cbn [formData password confirmPassword].
    destruct (post t (password (formData st))
                (confirmPassword (formData st))) as [m | m].
    + destruct (truthy (or_default m [])); exact H.
    + exact H.
Qed.

End ResetPasswordHandlers.

(** ** The callers of the slice: navigation bar and login form *)

Section Callers.

Import AuthSlice Router.

(** X25.  The logout button always reports success and leads to "/": the
    failure branch of [handleLogout] is never taken.  It clears the auth
    state and leaves the token store as it was. *)
Theorem navbar_logout_always_succeeds (env : Env) (w : World) :
  Navbar.handleLogout env w
  = (mkWorld (store w) (mkAuthState false None false None),
     mkToast false (js "Success") (js "Logged out successfully"),
     Some (js "/")).
Proof.
  destruct w as [ts st]. reflexivity.
Qed.

(** X26.  The login form sends nothing when the email or the password is
    empty: it only clears the error.  It navigates only when the login was
    fulfilled, and then [isAuthenticated] is true and a token is stored;
    when a submitted login fails it stays on the screen, signed out, with
    an empty token store and an error to show. *)
Theorem login_form_outcome (env : Env) (location : Location)
    (email password : jsstring) (w : World) :
  (email = [] \/ password = [] ->
   Login.handleEmailLogin env location email password w
   = (mkWorld (store w)
        (mkAuthState (isAuthenticated (auth w)) (user (auth w))
           (loading (auth w)) None),
      None))
  /\ (forall navigation,
         snd (Login.handleEmailLogin env location email password w)
         = Some navigation ->
         navigation = mkNavigation (Login.from_path location) None true
         /\ isAuthenticated
              (auth (fst (Login.handleEmailLogin env location email
                            password w))) = true
         /\ store (fst (Login.handleEmailLogin env location email
                          password w)) <> None)
  /\ (email <> [] -> password <> [] ->
      snd (Login.handleEmailLogin env location email password w) = None ->
      store (fst (Login.handleEmailLogin env location email password w))
      = None
      /\ isAuthenticated
           (auth (fst (Login.handleEmailLogin env location email
                         password w))) = false
      /\ error (auth (fst (Login.handleEmailLogin env location email
                             password w))) <> None).
Proof.
  unfold Login.handleEmailLogin.
  destruct (negb (truthy email) || negb (truthy password)) eqn:Hempty.
  - split; [intros _; reflexivity | split].
    + intros navigation H. discriminate H.
    + intros He Hp _. apply truthy_true in He. apply truthy_true in Hp.
      rewrite He, Hp in Hempty. discriminate.
  - split.
    { intros [-> | ->]; cbn in Hempty; rewrite ?orb_true_r in Hempty;
        discriminate. }
    rewrite login_dispatch_cases. cbn [credentials_email credentials_password].
    destruct (loginByEmail env email password) as [response | m].
    + destruct (get_find_by_email env email) as [profile | m]; cbn.
      * split; [| discriminate].
        intros navigation H. injection H as <-.
        repeat split. discriminate.
      * split; [discriminate |]. intros _ _ _. repeat split. discriminate.
    + cbn. split; [discriminate |]. intros _ _ _. repeat split. discriminate.
Qed.

(** X27.  Submitting the registration form never signs the user in: the
    token store, [isAuthenticated] and the user are as before.  A blocked
    form sends nothing and only stores the field errors.  The screen leaves
    for "/login" only when the form was valid and the server accepted the
    registration, with no registration error left; when the server refuses,
    it stays and shows a non-empty registration error. *)
Theorem registration_submit (toLowerCase : jsstring -> jsstring) (env : Env)
    (st : Register.State) (w : World) :
  let result := RegisterFlow.handleRegister toLowerCase env st w in
  let st' := fst (fst result) in
  let w' := snd (fst result) in
  let navigation := snd result in
  (store w' = store w
   /\ isAuthenticated (auth w') = isAuthenticated (auth w)
   /\ user (auth w') = user (auth w))
  /\ (fst (Register.run_validateForm st) = false ->
      result = (snd (Register.run_validateForm st), w, None))
  /\ (forall path,
         navigation = Some path ->
         path = js "/login"
         /\ fst (Register.run_validateForm st) = true
         /\ (exists response, post_citizens_add env = Resolved response)
         /\ Register.registrationError st' = None)
  /\ (forall m,
         fst (Register.run_validateForm st) = true ->
         post_citizens_add env = Thrown m ->
         navigation = None
         /\ exists text,
             Register.registrationError st' = Some text /\ text <> []).
Proof.
  cbv zeta. unfold RegisterFlow.handleRegister.
  destruct (Register.run_validateForm st) as [isValid st1] eqn:Ev.
  cbn [fst snd]. destruct isValid; cbn [negb].
  - destruct w as [ts a].
    cbv [dispatch dispatch_thunk settle registerCitizen try_catch bind ret
           throw await].
    cbn [reducer store auth fst snd].
    destruct (post_citizens_add env) as [response | m] eqn:Ep;
      cbn [fst snd store auth isAuthenticated user reducer].
    + split; [repeat split |]. split; [discriminate |]. split.
      * intros path H. injection H as <-. repeat split. eauto.
      * intros m _ H. discriminate H.
    + split; [repeat split |]. split; [discriminate |]. split.
      * intros path H. discriminate H.
      * intros m' _ _. split; [reflexivity |].
        cbn [response_message].
        set (text := or_default m (js "Registration failed")).
        assert (Htext : text <> []).
        { subst text. destruct m as [[| c r] |]; cbn; discriminate. }
        destruct (includes (toLowerCase text) (js "citizen already exists")
                  || includes (toLowerCase text) (js "already registered")
                  || includes (toLowerCase text) (js "already exists")).
        -- exists RegisterFlow.already_registered.
           split; [reflexivity | vm_compute; discriminate].
        -- exists text. split; [reflexivity | exact Htext].
  - split; [repeat split |]. split; [reflexivity |]. split.
    + intros path H. discriminate H.
    + intros m H. discriminate H.
Qed.

End Callers.

(** ** Concrete runs of the handlers *)

Section HandlerRuns.

Import Samples Documented.

Lemma emailRegex_shape_witness :
  Register.emailRegex (js "alice@example.com") = true
  /\ exists u v w,
      js "alice@example.com" = u ++ code "@" :: v ++ code "." :: w
      /\ u <> [] /\ v <> [] /\ w <> []
      /\ forallb Register.not_space_at u = true
      /\ forallb Register.not_space_at v = true
      /\ forallb Register.not_space_at w = true.
Proof.
  assert (H : Register.emailRegex (js "alice@example.com") = true)
    by (vm_compute; reflexivity).
  split; [exact H | exact (proj1 (emailRegex_shape _) H)].
Defined.

Lemma emailRegex_one_at_witness :
  Register.emailRegex (js "alice@example.com") = true
  /\ count_occ N.eq_dec (js "alice@example.com") (code "@") = 1
  /\ existsb space (js "alice@example.com") = false
  /\ 5 <= List.length (js "alice@example.com").
Proof.
  assert (H : Register.emailRegex (js "alice@example.com") = true)
    by (vm_compute; reflexivity).
  split; [exact H | exact (emailRegex_one_at _ H)].
Defined.

(** A form with a phone number only is accepted without any
    verification. *)
Lemma registration_accepted_iff_witness :
  fst (Register.validateForm phone_only_form false) = true
  /\ (Register.email phone_only_form <> []
      \/ Register.phoneNumber phone_only_form <> [])
  /\ (Register.email phone_only_form = []
      \/ (Register.emailRegex (Register.email phone_only_form) = true
          /\ false = true))
  /\ (Register.phoneNumber phone_only_form = []
      \/ Register.phoneRegex (Register.phoneNumber phone_only_form) = true)
  /\ 8 <= List.length (Register.password phone_only_form)
  /\ Register.confirmPassword phone_only_form
     = Register.password phone_only_form.
Proof.
  assert (H : fst (Register.validateForm phone_only_form false) = true)
    by (vm_compute; reflexivity).
  split; [exact H | exact (proj1 (registration_accepted_iff _ _) H)].
Defined.

Lemma registration_errors_iff_witness :
  fst (Register.validateForm phone_only_form false) = true
  /\ snd (Register.validateForm phone_only_form false)
     = Register.FormErrors.mk [] [] [] [].
Proof.
  assert (H : fst (Register.validateForm phone_only_form false) = true)
    by (vm_compute; reflexivity).
  split; [exact H | exact (proj1 (registration_errors_iff _ _) H)].
Defined.

(** Retyping the email after it was verified blocks the form again. *)
Lemma email_edit_discards_verification_witness :
  Register.isEmailVerified email_verified = true
  /\ js "alice@example.com" <> []
  /\ fst (Register.run_validateForm
            (Register.handleChange Register.email_field
               (js "alice@example.com") email_verified)) = false.
Proof.
  assert (H : js "alice@example.com" <> []) by (vm_compute; discriminate).
  split; [reflexivity | split; [exact H |]].
  exact (proj1 (proj2 (email_edit_discards_verification
                         (js "alice@example.com") email_verified)) H).
Defined.

(** An error answer saying the email is already verified verifies it
    without opening the OTP input. *)
Lemma send_verification_outcome_witness :
  let post_mail_send :=
    fun _ : jsstring =>
      @Thrown (option ApiResponse) (Some (js "Email is already verified")) in
  let st := Register.setShowOtpModal false awaiting_otp in
  Register.emailRegex (Register.email (Register.formData st)) = true
  /\ Register.isEmailVerified
       (Register.handleSendVerification post_mail_send st) = true
  /\ Register.showOtpModal
       (Register.handleSendVerification post_mail_send st) = false
  /\ Register.verificationLoading
       (Register.handleSendVerification post_mail_send st) = false.
Proof.
  intros post_mail_send st.
  assert (H : Register.emailRegex (Register.email (Register.formData st))
              = true) by (vm_compute; reflexivity).
  split; [exact H |].
  exact (proj2 (send_verification_outcome post_mail_send st) H).
Defined.

(** Typing a digit into the third box keeps the buffer well formed and
    moves the focus to the fourth; once the fourth box is emptied,
    Backspace in it moves the focus back to the third. *)
Lemma otp_buffer_invariant_witness :
  let emptied := fst (Register.handleOtpChange 3 [] awaiting_otp) in
  otp_well_formed (Register.otp awaiting_otp) /\ 2 < 6
  /\ otp_well_formed
       (Register.otp (fst (Register.handleOtpChange 2 (js "7") awaiting_otp)))
  /\ snd (Register.handleOtpChange 2 (js "7") awaiting_otp) = Some 3
  /\ (forall n,
         snd (Register.handleOtpChange 2 (js "7") awaiting_otp) = Some n ->
         n = 2 + 1 /\ n < 6)
  /\ 0 < 3
  /\ nth_error (Register.otp emptied) 3 = Some []
  /\ Register.handleKeyDown 3 (js "Backspace") emptied = Some 2.
Proof.
  cbv zeta.
  assert (H1 : otp_well_formed (Register.otp awaiting_otp))
    by (split; reflexivity).
  assert (H2 : 2 < 6) by lia.
  assert (H3 : 0 < 3) by lia.
  assert (H4 : nth_error
                 (Register.otp
                    (fst (Register.handleOtpChange 3 [] awaiting_otp))) 3
               = Some [])
    by reflexivity.
  split; [exact H1 | split; [exact H2 |]].
  split;
    [exact (proj1 (proj1 (proj2 otp_buffer_invariant) awaiting_otp 2
                     (js "7") H1 H2)) |].
  split;
    [exact (proj1 (proj2 (proj2 (proj2 (proj2 otp_buffer_invariant))))
              awaiting_otp 2 (js "7")) |].
  split;
    [exact (proj2 (proj1 (proj2 otp_buffer_invariant) awaiting_otp 2
                     (js "7") H1 H2)) |].
  split; [exact H3 | split; [exact H4 |]].
  exact (proj1 (proj2 (proj2 (proj2 (proj2 (proj2 (proj2
           otp_buffer_invariant))))))
           (fst (Register.handleOtpChange 3 [] awaiting_otp)) 3 H3 H4).
Defined.

(** A code pasted with a space before it and a line feed after it. *)
Lemma otp_paste_fills_boxes_witness :
  let a := js " " in
  let d := js "123456" in
  let b := [10%N] in
  List.length d = 6 /\ forallb digit d = true
  /\ forallb space a = true /\ forallb space b = true
  /\ join (Register.otp
             (fst (Register.handleOtpPaste (a ++ d ++ b)
                     (Register.setOtp Register.initial_otp awaiting_otp))))
     = d.
Proof.
  intros a d b.
  assert (H1 : List.length d = 6) by reflexivity.
  assert (H2 : forallb digit d = true) by reflexivity.
  assert (H3 : forallb space a = true) by reflexivity.
  assert (H4 : forallb space b = true) by reflexivity.
  repeat (split; [assumption |]).
  exact (proj1 (proj1 (otp_paste_fills_boxes
                         (Register.setOtp Register.initial_otp awaiting_otp))
                  a d b H1 H2 H3 H4)).
Defined.

(** With the fourth box emptied nothing is sent. *)
Lemma otp_submitted_only_when_full_witness :
  let st :=
    fst (Register.handleOtpChange 3 [] awaiting_otp) in
  let post := fun _ _ : jsstring => @Thrown (option ApiResponse) None in
  otp_well_formed (Register.otp st)
  /\ forallb truthy (Register.otp st) = false
  /\ Register.handleVerifyOtp post st
     = Register.setVerificationError
         (js "Please enter a valid 6-digit OTP") st.
Proof.
  intros st post.
  assert (H1 : otp_well_formed (Register.otp st)) by (split; reflexivity).
  assert (H2 : forallb truthy (Register.otp st) = false) by reflexivity.
  split; [exact H1 | split; [exact H2 |]].
  exact (proj2 (otp_submitted_only_when_full post st H1) H2).
Defined.

Lemma forgot_password_submit_witness :
  let post := fun _ : jsstring => @Thrown (option ApiResponse) None in
  ForgotPassword.validateEmail (ForgotPassword.email forgot_with_typo)
  = false
  /\ ForgotPassword.handleSubmit post forgot_with_typo
     = ForgotPassword.mkState (js "alice.example.com") false false
         (Some (js "Please enter a valid email address")) [].
Proof.
  intros post.
  assert (H : ForgotPassword.validateEmail
                (ForgotPassword.email forgot_with_typo) = false)
    by (vm_compute; reflexivity).
  split; [exact H | exact (proj1 (forgot_password_submit post _) H)].
Defined.

Lemma reset_password_accepted_iff_witness :
  let formData := ResetPassword.formData reset_ready in
  fst (ResetPassword.validateForm formData) = true
  /\ ResetPassword.passwordRegex (ResetPassword.password formData) = true
  /\ ResetPassword.confirmPassword formData
     = ResetPassword.password formData.
Proof.
  intros formData.
  assert (H : fst (ResetPassword.validateForm formData) = true)
    by (vm_compute; reflexivity).
  split; [exact H |].
  exact (proj1 (proj1 (reset_password_accepted_iff formData)) H).
Defined.

Lemma accepted_iff_strong_and_plain_witness :
  ResetPassword.passwordRegex (js "Str0ng!Pass") = true
  /\ ResetPassword.checkPasswordStrength (js "Str0ng!Pass")
     = ResetPassword.strong
  /\ forallb ResetPassword.password_char (js "Str0ng!Pass") = true.
Proof.
  assert (H : ResetPassword.passwordRegex (js "Str0ng!Pass") = true)
    by (vm_compute; reflexivity).
  split; [exact H | exact (proj1 (accepted_iff_strong_and_plain _) H)].
Defined.

(** Without a token in the link nothing is submitted. *)
Lemma reset_submit_guarded_witness :
  let post :=
    fun _ _ _ : jsstring => ResetPassword.Replied (Some (js "Done")) in
  (fst (ResetPassword.validateForm
          (ResetPassword.formData reset_without_token)) = false
   \/ ResetPassword.token_missing reset_without_token = true)
  /\ ResetPassword.isSuccess
       (ResetPassword.handleSubmit post reset_without_token) = false.
Proof.
  intros post.
  assert (H : fst (ResetPassword.validateForm
                     (ResetPassword.formData reset_without_token)) = false
              \/ ResetPassword.token_missing reset_without_token = true)
    by (right; reflexivity).
  split; [exact H |].
  exact (f_equal ResetPassword.isSuccess
           (proj1 (reset_submit_guarded post reset_without_token) H)).
Defined.

(** The server answers that the token has expired: the link is marked
    invalid. *)
Lemma reset_link_validity_witness :
  let post :=
    fun _ _ _ : jsstring =>
      ResetPassword.Failed (Some (js "Token has expired")) in
  fst (ResetPassword.validateForm (ResetPassword.formData reset_ready))
  = true
  /\ ResetPassword.token reset_ready = Some (js "reset-token-1")
  /\ js "reset-token-1" <> []
  /\ ResetPassword.error (ResetPassword.handleSubmit post reset_ready)
     = Some (js "Token has expired")
  /\ ResetPassword.isTokenValid (ResetPassword.handleSubmit post reset_ready)
     = false.
Proof.
  intros post.
  assert (H1 : fst (ResetPassword.validateForm
                      (ResetPassword.formData reset_ready)) = true)
    by (vm_compute; reflexivity).
  assert (H2 : ResetPassword.token reset_ready = Some (js "reset-token-1"))
    by reflexivity.
  assert (H3 : js "reset-token-1" <> []) by (vm_compute; discriminate).
  split; [exact H1 | split; [exact H2 | split; [exact H3 |]]].
  destruct (proj2 (reset_link_validity post reset_ready)
              (js "reset-token-1") (Some (js "Token has expired"))
              H1 H2 H3 eq_refl) as (E1 & E2 & _).
  split; [exact E1 | exact E2].
Defined.

Lemma strength_display_fresh_witness :
  strength_fresh (ResetPassword.initial None)
  /\ strength_fresh
       (ResetPassword.handleChange ResetPassword.password_field (js "abc")
          (ResetPassword.initial None)).
Proof.
  assert (H : strength_fresh (ResetPassword.initial None))
    by exact (proj1 strength_display_fresh None).
  split; [exact H |].
  exact (proj1 (proj2 strength_display_fresh) _
           ResetPassword.password_field (js "abc") H).
Defined.

(** Checking without a stored token. *)
Lemma checkAuth_outcome_witness :
  AuthSlice.store (AuthSlice.init None) = None
  /\ fst (AuthSlice.dispatch offline AuthSlice.do_checkAuth
            (AuthSlice.init None))
     = AuthSlice.mkWorld None
         (AuthSlice.mkAuthState false None false
            (Some (js "No authentication token found"))).
Proof.
  assert (H : AuthSlice.store (AuthSlice.init None) = None) by reflexivity.
  split; [exact H |].
  exact (proj1 (proj2 (proj2 (checkAuth_outcome offline
                                (AuthSlice.init None)))) H).
Defined.

(** A valid token and an unreachable server: the token is thrown away. *)
Lemma checkAuth_valid_token_witness :
  AuthSlice.store signed_in = Some new_token
  /\ AuthService.isTokenExpired (AuthSlice.now offline) new_token = false
  /\ fst (AuthSlice.dispatch offline AuthSlice.do_checkAuth signed_in)
     = AuthSlice.mkWorld None
         (AuthSlice.mkAuthState false None false (Some [])).
Proof.
  assert (H1 : AuthSlice.store signed_in = Some new_token) by reflexivity.
  assert (H2 : AuthService.isTokenExpired (AuthSlice.now offline) new_token
               = false) by reflexivity.
  split; [exact H1 | split; [exact H2 |]].
  exact (checkAuth_valid_token offline signed_in H1 H2).
Defined.

Lemma refresh_keeps_a_token_witness :
  AuthSlice.store signed_in <> None
  /\ AuthSlice.store
       (fst (AuthSlice.dispatch offline AuthSlice.do_refreshToken signed_in))
     <> None.
Proof.
  assert (H : AuthSlice.store signed_in <> None) by discriminate.
  split; [exact H |].
  exact (proj1 (proj2 (refresh_keeps_a_token offline signed_in)) H).
Defined.

(** The profile of [bob] has no language preference: "en" is filled in. *)
Lemma refresh_language_default_witness :
  let w' :=
    fst (AuthSlice.dispatch online_bob AuthSlice.do_refreshToken
           (AuthSlice.init None)) in
  AuthSlice.isAuthenticated (AuthSlice.auth w') = true
  /\ exists response new_token profile,
      AuthSlice.refreshAccessToken online_bob = Resolved response
      /\ AuthSlice.data response = Some new_token
      /\ AuthSlice.get_me online_bob new_token = Resolved profile
      /\ AuthSlice.user (AuthSlice.auth w')
         = Some (AuthSlice.mkUser (AuthSlice.id profile)
                   (AuthSlice.fullName profile)
                   (AuthSlice.email profile) (AuthSlice.phoneNumber profile)
                   (if truthy (AuthSlice.languagePreference profile)
                    then AuthSlice.languagePreference profile else js "en")
                   (AuthSlice.location profile))
      /\ (forall u,
             AuthSlice.user (AuthSlice.auth w') = Some u ->
             AuthSlice.languagePreference u <> []).
Proof.
  intros w'.
  assert (H : AuthSlice.isAuthenticated (AuthSlice.auth w') = true)
    by reflexivity.
  split; [exact H |].
  exact (refresh_language_default online_bob (AuthSlice.init None) H).
Defined.

Lemma fetchCurrentUser_outcome_witness :
  AuthSlice.store (AuthSlice.init None) = None
  /\ AuthSlice.auth
       (fst (AuthSlice.dispatch online AuthSlice.do_fetchCurrentUser
               (AuthSlice.init None)))
     = AuthSlice.mkAuthState false None false
         (Some (js "Failed to fetch user data")).
Proof.
  assert (H : AuthSlice.store (AuthSlice.init None) = None) by reflexivity.
  split; [exact H |].
  exact (proj1 (proj2 (fetchCurrentUser_outcome online
                         (AuthSlice.init None))) H).
Defined.

(** The login form submitted with an empty password sends nothing. *)
Lemma login_form_outcome_witness :
  (js "alice@example.com" = [] \/ @nil char = [])
  /\ Login.handleEmailLogin online case_page (js "alice@example.com") []
       signed_in
     = (signed_in, None).
Proof.
  assert (H : js "alice@example.com" = [] \/ @nil char = [])
    by (right; reflexivity).
  split; [exact H |].
  exact (proj1 (login_form_outcome online case_page
                  (js "alice@example.com") [] signed_in) H).
Defined.

(** The registration form with an unverified email is blocked and nothing
    is sent. *)
Lemma registration_submit_witness :
  let toLowerCase := fun s : jsstring => s in
  fst (Register.run_validateForm awaiting_otp) = false
  /\ RegisterFlow.handleRegister toLowerCase online awaiting_otp
       (AuthSlice.init None)
     = (snd (Register.run_validateForm awaiting_otp), AuthSlice.init None,
        None).
Proof.
  intros toLowerCase.
  assert (H : fst (Register.run_validateForm awaiting_otp) = false)
    by (vm_compute; reflexivity).
  split; [exact H |].
  exact (proj1 (proj2 (registration_submit toLowerCase online awaiting_otp
                         (AuthSlice.init None))) H).
Defined.

End HandlerRuns.
